(** * M3F: the Gibbs update of the bias matrices [c] and [d]

    A shallow embedding of [m3f_matlab/mex/m3f_tib_sampleOffsets.c]: the
    sampler [sampleOffsets] and the entry point [mexFunction], followed by
    the properties of the two that the specification states.

    Conventions of the embedding.
    - A C [double] is an element of a type [D] that carries the operations
      the source applies to doubles ([DoubleOps]).  The embedding is written
      once for every such [D]; the IEEE binary64 numbers of the machine
      ([PrimFloat.float]) and the real numbers ([R]) are the two instances
      used below.  Algebraic laws are never built in: a theorem that needs
      one states it.
    - A C [int] or [uint32_t] is a [Z]; unsigned arithmetic wraps modulo
      2^32 ([wrap32]), a signed result outside the range of [int]
      is undefined behaviour.
    - Undefined behaviour (an access outside an array, signed overflow) is
      the result [None].  So is the read of a cell of the scratch counts
      that was never written, where the program goes on with whatever the
      cell holds: there the embedding is stricter than the program.
    - The arrays the entry point receives live in one [state]; the sampler
      is handed selectors ([dptr], [uptr], [jptr]) in place of pointers, so
      that the roles of users and items can be swapped as the source does.
    - The [omp parallel for] over the entities is taken in its one-thread
      schedule: entities in increasing order, one scratch buffer, one
      generator. *)

From Stdlib Require Import Floats.PrimFloat.
From stdpp Require Import base option list.
From Stdlib Require Import ZArith Lia Reals Lra.

Local Open Scope Z_scope.

(** ** Doubles *)

(** The operations of the source on [double]: the literals [0] and [1.0],
    [+], [-], [*], [/], [sqrt] of math.h and the conversion of an [int]. *)
Class DoubleOps (D : Type) : Type := {
  d_zero : D;
  d_one : D;
  d_add : D -> D -> D;
  d_sub : D -> D -> D;
  d_mul : D -> D -> D;
  d_div : D -> D -> D;
  d_sqrt : D -> D;
  d_of_int : Z -> D
}.

(** ** Machine integers *)

Definition INT_MAX : Z := 2 ^ 31 - 1.
Definition UINT32_MOD : Z := 2 ^ 32.

(** Arithmetic on [uint32_t] is modulo 2^32. *)
Definition wrap32 (z : Z) : Z := z mod UINT32_MOD.

(** Conversion of a [uint32_t] to [int] (two's complement). *)
Definition to_int (z : Z) : Z := if z <=? INT_MAX then z else z - UINT32_MOD.

(** A signed result must fit an [int]. *)
Definition int_range (z : Z) : option Z :=
  if (- INT_MAX - 1 <=? z) && (z <=? INT_MAX) then Some z else None.

(** ** Arrays *)

(** [a[i]] as an rvalue. *)
Definition aread {A : Type} (a : list A) (i : Z) : option A :=
  if 0 <=? i then a !! Z.to_nat i else None.

(** [a[i] = v]. *)
Definition awrite {A : Type} (a : list A) (i : Z) (v : A) : option (list A) :=
  if (0 <=? i) && (i <? Z.of_nat (length a)) then Some (<[Z.to_nat i := v]> a)
  else None.

(** [for (int i = i0; ...; i++) body], run for [n] rounds. *)
Fixpoint for_loop {S : Type} (body : Z -> S -> option S) (i : Z) (n : nat) (s : S)
  : option S :=
  match n with
  | O => Some s
  | S n' => s' ← body i s; for_loop body (i + 1) n' s'
  end.

(** ** The memory of one call *)

(** Selectors of the [double] arrays: [samp.c], [samp.d] and [resids]. *)
Inductive dptr : Type := Pc | Pd | Presids.

(** Selectors of the [uint32_t] arrays: [data.users], [data.items], [zU], [zM]. *)
Inductive uptr : Type := Pusers | Pitems | PzU | PzM.

(** Selectors of the jagged arrays: [data.exampsByUser], [data.exampsByItem]. *)
Inductive jptr : Type := PexampsByUser | PexampsByItem.

#[global] Instance dptr_eq_dec : EqDecision dptr.
Proof. solve_decision. Defined.

Section Sampler.

Context {D : Type} {ops : DoubleOps D}.

(** The unit normal deviates the generator yields, in the order of the
    draws; the state of the generator is the number of draws made. *)
Variable deviates : nat -> D.

Record state : Type := mkState {
  st_users : list Z;
  st_items : list Z;
  st_zU : list Z;
  st_zM : list Z;
  st_exampsByUser : list (list Z);
  st_exampsByItem : list (list Z);
  st_resids : list D;
  st_c : list D;
  st_d : list D;
  st_rng : nat
}.

Definition dget (st : state) (p : dptr) : list D :=
  match p with Pc => st_c st | Pd => st_d st | Presids => st_resids st end.

Definition dset (st : state) (p : dptr) (a : list D) : state :=
  match p with
  | Pc => mkState (st_users st) (st_items st) (st_zU st) (st_zM st)
            (st_exampsByUser st) (st_exampsByItem st) (st_resids st) a (st_d st)
            (st_rng st)
  | Pd => mkState (st_users st) (st_items st) (st_zU st) (st_zM st)
            (st_exampsByUser st) (st_exampsByItem st) (st_resids st) (st_c st) a
            (st_rng st)
  | Presids => mkState (st_users st) (st_items st) (st_zU st) (st_zM st)
            (st_exampsByUser st) (st_exampsByItem st) a (st_c st) (st_d st)
            (st_rng st)
  end.

Definition uget (st : state) (p : uptr) : list Z :=
  match p with
  | Pusers => st_users st | Pitems => st_items st
  | PzU => st_zU st | PzM => st_zM st
  end.

Definition jget (st : state) (p : jptr) : list (list Z) :=
  match p with
  | PexampsByUser => st_exampsByUser st
  | PexampsByItem => st_exampsByItem st
  end.

(** [p[i]] for a [double*] and for a [uint32_t*]; [p[i] = v]. *)
Definition dload (st : state) (p : dptr) (i : Z) : option D := aread (dget st p) i.
Definition uload (st : state) (p : uptr) (i : Z) : option Z := aread (uget st p) i.
Definition dstore (st : state) (p : dptr) (i : Z) (v : D) : option state :=
  a ← awrite (dget st p) i v; Some (dset st p a).

(** ** Collaborators that are not part of the file *)

(** Modelled from the spec: [gsl_ran_gaussian(rng, sigma)] of the GSL on a
    generator of [getRngArray()] (mexUtil.h, which is missing), the generator
    service.  A Gaussian deviate of standard deviation [sigma] is [sigma]
    times the next unit deviate ("sqrt(variance) × StandardGaussianDraw()");
    the generator advances by one draw. *)
Definition gsl_ran_gaussian (st : state) (sigma : D) : D * state :=
  (d_mul sigma (deviates (st_rng st)),
   mkState (st_users st) (st_items st) (st_zU st) (st_zM st)
     (st_exampsByUser st) (st_exampsByItem st) (st_resids st) (st_c st) (st_d st)
     (S (st_rng st))).

(** Modelled from the spec: [fillArrayD(ptr, n, v)] of mexUtil.h, which is
    missing; it sets [ptr[0..n-1]] to [v] ("Initialize c offsets to 0",
    "sum[1..KPrimary] = 0"). *)
Definition fillArrayD (p : dptr) (ptr : Z) (n : Z) (v : D) (st : state) : option state :=
  for_loop (fun i st => dstore st p (ptr + i) v) 0 (Z.to_nat n) st.

(** Modelled from the spec: [fillArrayI(ptr, n, v)] of mexUtil.h, which is
    missing; the same for an [int] buffer ("count[1..KPrimary] = 0").  A cell
    of the scratch buffer is [None] until it is written. *)
Definition fillArrayI (n : Z) (v : Z) (buf : list (option Z)) : option (list (option Z)) :=
  for_loop (fun i buf => awrite buf i (Some v)) 0 (Z.to_nat n) buf.

(** Modelled from the spec: [unpackJagged(cells, &ptrs, &lens, n)] of
    mexUtil.h, which is missing; it exposes the first [n] adjacency lists
    ("Adjacency list covers all numPrimary entities, possibly with empty
    lists"). *)
Definition unpackJagged (cells : list (list Z)) (n : Z) : option (list (list Z)) :=
  if Z.of_nat (length cells) <? n then None else Some (take (Z.to_nat n) cells).

(** [mxMalloc(KM*sizeof( *counts))]: [counts] is an array of [int*], so the
    block has room for [KM * sizeof(int* ) / sizeof(int)] cells of [int], none
    of them initialised.  A negative [KM] converts to a size no allocation
    can serve, and the MEX function is aborted. *)
Definition sizeof_ptr : Z := 8.
Definition sizeof_int : Z := 4.
Definition mxMalloc_counts (KM : Z) : option (list (option Z)) :=
  if KM <? 0 then None
  else Some (replicate (Z.to_nat (KM * sizeof_ptr / sizeof_int)) None).

(** ** [sampleOffsets] *)

(** The body of the loop over the examples of an entity (lines 101-108),
    for the adjacency entry [ex = examps[j]]. *)
Definition accum_body (items : uptr) (KU : Z) (c d : dptr) (zU zM : uptr)
    (resids : dptr) (cPtr : Z) (ex : Z)
    (s : state * list (option Z)) : option (state * list (option Z)) :=
  let '(st, counts) := s in
  let e := wrap32 (ex - 1) in
  zm ← uload st zM e;
  let i := to_int (wrap32 (zm - 1)) in
  st' ← (if 0 <? KU then
           old ← dload st c (cPtr + i);
           r ← dload st resids e;
           it ← uload st items e;
           zu ← uload st zU e;
           dv ← dload st d (wrap32 (wrap32 (wrap32 (it - 1) * wrap32 KU)
                                     + wrap32 (zu - 1)));
           dstore st c (cPtr + i) (d_add old (d_sub r dv))
         else
           old ← dload st c (cPtr + i);
           r ← dload st resids e;
           dstore st c (cPtr + i) (d_add old r));
  cell ← aread counts i;
  n ← cell;
  n' ← int_range (n + 1);
  counts' ← awrite counts i (Some n');
  Some (st', counts').

(** One round of the loop over the examples of an entity (lines 100-109). *)
Definition accum_iter (items : uptr) (KU : Z) (c d : dptr) (zU zM : uptr)
    (resids : dptr) (cPtr : Z) (examps : list Z) (j : Z)
    (s : state * list (option Z)) : option (state * list (option Z)) :=
  ex ← aread examps j;
  accum_body items KU c d zU zM resids cPtr ex s.

(** One round of the loop over the topics of an entity (lines 112-116). *)
Definition sample_iter (invSigmaSqd invSigmaSqd0 ratio : D) (c : dptr) (cPtr : Z)
    (counts : list (option Z)) (i : Z) (st : state) : option state :=
  cell ← aread counts i;
  n ← cell;
  let variance := d_div d_one (d_add invSigmaSqd0 (d_mul (d_of_int n) invSigmaSqd)) in
  old ← dload st c (cPtr + i);
  let '(g, st1) := gsl_ran_gaussian st (d_sqrt variance) in
  dstore st1 c (cPtr + i)
    (d_add (d_mul (d_add ratio (d_mul old invSigmaSqd)) variance) g).

(** The first half of the body of the loop over the entities (lines 89-109):
    the row of the entity and the scratch counts are zeroed, then the
    sufficient statistics are accumulated over the examples of the entity.
    The counter [j] of the inner loop is an [int]: a list longer than
    [INT_MAX] makes it overflow.  The result carries [cPtr] for the second
    half. *)
Definition entity_stats (items : uptr) (KU KM : Z) (c d : dptr) (zU zM : uptr)
    (resids : dptr) (userExamps : list (list Z))
    (u : Z) (s : state * list (option Z)) : option (Z * (state * list (option Z))) :=
  let '(st, counts) := s in
  cPtr ← int_range (u * KM);
  st1 ← fillArrayD c cPtr KM d_zero st;
  counts1 ← fillArrayI KM 0 counts;
  examps ← aread userExamps u;
  let len := Z.of_nat (length examps) in
  if INT_MAX <? len then None else
  s2 ← for_loop (accum_iter items KU c d zU zM resids cPtr examps)
         0 (Z.to_nat len) (st1, counts1);
  Some (cPtr, s2).

(** The body of the loop over the entities (lines 88-117): the statistics,
    then one draw for every topic (lines 111-116). *)
Definition entity_iter (items : uptr) (KU KM : Z) (invSigmaSqd invSigmaSqd0 ratio : D)
    (c d : dptr) (zU zM : uptr) (resids : dptr) (userExamps : list (list Z))
    (u : Z) (s : state * list (option Z)) : option (state * list (option Z)) :=
  '(cPtr, (st2, counts2)) ← entity_stats items KU KM c d zU zM resids userExamps u s;
  st3 ← for_loop (sample_iter invSigmaSqd invSigmaSqd0 ratio c cPtr counts2)
          0 (Z.to_nat KM) st2;
  Some (st3, counts2).

(** [sampleOffsets], "written from perspective of sample c offsets". *)
Definition sampleOffsets (users items : uptr) (exampsByUser : jptr)
    (KU KM numUsers : Z) (invSigmaSqd invSigmaSqd0 c0 : D) (c d : dptr)
    (zU zM : uptr) (resids : dptr) (st : state) : option state :=
  userExamps ← unpackJagged (jget st exampsByUser) numUsers;
  let ratio := d_mul c0 invSigmaSqd0 in
  counts ← mxMalloc_counts KM;
  '(st', _) ← for_loop (entity_iter items KU KM invSigmaSqd invSigmaSqd0 ratio
                          c d zU zM resids userExamps)
                 0 (Z.to_nat numUsers) (st, counts);
  Some st'.

(** ** [mexFunction] *)

(** The fields of the [model] structure that the entry point reads; the
    four counts are the values after the rounding conversion to [int]. *)
Record model : Type := mkModel {
  m_KU : Z;
  m_KM : Z;
  m_numUsers : Z;
  m_numItems : Z;
  m_sigmaSqd : D;
  m_sigmaSqd0 : D;
  m_c0 : D;
  m_d0 : D
}.

(** [(sampParams == NULL) || sampParams[k]]; [sampParams] is [NULL] unless a
    seventh argument is passed. *)
Definition sampFlag (sampParams : option (list bool)) (k : Z) : option bool :=
  match sampParams with
  | None => Some true
  | Some flags => aread flags k
  end.

(** [(K > 0) && (...)], with the short circuit of [&&]. *)
Definition phase_guard (K : Z) (sampParams : option (list bool)) (k : Z) : option bool :=
  if 0 <? K then sampFlag sampParams k else Some false.

Definition mexFunction (m : model) (sampParams : option (list bool)) (st : state)
  : option state :=
  let KU := m_KU m in
  let KM := m_KM m in
  let numUsers := m_numUsers m in
  let numItems := m_numItems m in
  let invSigmaSqd := d_div d_one (m_sigmaSqd m) in
  let invSigmaSqd0 := d_div d_one (m_sigmaSqd0 m) in
  let c0 := m_c0 m in
  let d0 := m_d0 m in
  goU ← phase_guard KM sampParams 0;
  st1 ← (if goU : bool then
           sampleOffsets Pusers Pitems PexampsByUser KU KM numUsers
             invSigmaSqd invSigmaSqd0 c0 Pc Pd PzU PzM Presids st
         else Some st);
  goI ← phase_guard KU sampParams 1;
  if goI : bool then
    sampleOffsets Pitems Pusers PexampsByItem KM KU numItems
      invSigmaSqd invSigmaSqd0 d0 Pd Pc PzM PzU Presids st1
  else Some st1.

(** ** The quantities the specification names *)

(** The slot of the accumulators an adjacency entry [ex] (one-based) feeds:
    [zM[e] - 1] for [e = ex - 1]. *)
Definition slot_of (st : state) (zM : uptr) (ex : Z) : Z :=
  default 0 (uload st zM (ex - 1)) - 1.

(** What the entry adds to its slot: [resids[e] - d[(items[e]-1)*KU + (zU[e]-1)]]
    when [KU > 0], [resids[e]] otherwise. *)
Definition contribution (st : state) (items : uptr) (KU : Z) (d : dptr) (zU : uptr)
    (resids : dptr) (ex : Z) : D :=
  let e := ex - 1 in
  let r := default d_zero (dload st resids e) in
  if 0 <? KU then
    d_sub r (default d_zero
               (dload st d ((default 0 (uload st items e) - 1) * KU
                            + (default 0 (uload st zU e) - 1))))
  else r.

(** The entries of an adjacency list that feed slot [i], in the order of the list. *)
Definition topic_examples (st : state) (zM : uptr) (examps : list Z) (i : Z) : list Z :=
  filter (fun ex => slot_of st zM ex = i) examps.

(** [count[i]]: how many entries feed slot [i]. *)
Definition topic_count (st : state) (zM : uptr) (examps : list Z) (i : Z) : Z :=
  Z.of_nat (length (topic_examples st zM examps i)).

(** [sum[i]]: the contributions of those entries, added to [0] in the order
    of the list. *)
Definition topic_sum (st : state) (items : uptr) (KU : Z) (d : dptr) (zU zM : uptr)
    (resids : dptr) (examps : list Z) (i : Z) : D :=
  fold_left (fun acc ex => d_add acc (contribution st items KU d zU resids ex))
    (topic_examples st zM examps i) d_zero.

(** The adjacency list of entity [u] (zero-based), empty when there is none. *)
Definition examples_of (st : state) (exampsByUser : jptr) (u : Z) : list Z :=
  default [] (aread (jget st exampsByUser) u).

(** The value lines 113-115 store for a slot with count [n] and sum [s]
    when the unit deviate drawn is [g]. *)
Definition sampled_offset (invSigmaSqd invSigmaSqd0 ratio : D) (n : Z) (s g : D) : D :=
  let variance := d_div d_one (d_add invSigmaSqd0 (d_mul (d_of_int n) invSigmaSqd)) in
  d_add (d_mul (d_add ratio (d_mul s invSigmaSqd)) variance)
        (d_mul (d_sqrt variance) g).

(** The draw as the specification writes it: [mean + sqrt(variance) × g]. *)
Definition posterior_variance (invSigmaSqd invSigmaSqd0 : D) (count : Z) : D :=
  d_div d_one (d_add invSigmaSqd0 (d_mul (d_of_int count) invSigmaSqd)).

Definition posterior_mean (invSigmaSqd invSigmaSqd0 priorMean : D) (count : Z) (sum : D) : D :=
  d_mul (posterior_variance invSigmaSqd invSigmaSqd0 count)
        (d_add (d_mul priorMean invSigmaSqd0) (d_mul sum invSigmaSqd)).

Definition posterior_draw (invSigmaSqd invSigmaSqd0 priorMean : D) (count : Z)
    (sum g : D) : D :=
  d_add (posterior_mean invSigmaSqd invSigmaSqd0 priorMean count sum)
        (d_mul (d_sqrt (posterior_variance invSigmaSqd invSigmaSqd0 count)) g).

(** The total of the first [n] cells of the scratch counts. *)
Fixpoint sum_upto (n : nat) (f : Z -> Z) : Z :=
  match n with
  | O => 0
  | S n' => sum_upto n' f + f (Z.of_nat n')
  end.

Definition count_cell (counts : list (option Z)) (i : Z) : Z :=
  match aread counts i with Some (Some n) => n | _ => 0 end.

Definition counts_total (KM : Z) (counts : list (option Z)) : Z :=
  sum_upto (Z.to_nat KM) (count_cell counts).

(** ** Well-formed inputs *)

Definition in_bounds {A : Type} (a : list A) (i : Z) : bool :=
  (0 <=? i) && (i <? Z.of_nat (length a)).

(** An adjacency entry is usable: it is a one-based index of an example,
    the topic of the example on the other side is in [[1, KM]], and, when
    [KU > 0], the offset it refers to lies inside [d]. *)
Definition example_ok (st : state) (items : uptr) (KU KM : Z) (d : dptr)
    (zU zM : uptr) (resids : dptr) (ex : Z) : bool :=
  let e := ex - 1 in
  (1 <=? ex) && (ex <? UINT32_MOD) &&
  match uload st zM e, dload st resids e with
  | Some zm, Some _ =>
      (1 <=? zm) && (zm <=? KM) &&
      (if 0 <? KU then
         match uload st items e, uload st zU e with
         | Some it, Some zu =>
             let k := (it - 1) * KU + (zu - 1) in
             (k <? UINT32_MOD) && in_bounds (dget st d) k
         | _, _ => false
         end
       else true)
  | _, _ => false
  end.

(** The inputs of one call of [sampleOffsets] are usable: the offsets hold
    [numUsers] rows of [KM] entries, there is an adjacency list for every
    entity, and every entry of every list is usable. *)
Definition side_ok (st : state) (items : uptr) (exampsByUser : jptr)
    (KU KM numUsers : Z) (c d : dptr) (zU zM : uptr) (resids : dptr) : bool :=
  (0 <=? KM) && (0 <=? numUsers) && (numUsers * KM <=? INT_MAX)
  && (numUsers * KM <=? Z.of_nat (length (dget st c)))
  && (numUsers <=? Z.of_nat (length (jget st exampsByUser)))
  && forallb (fun examps =>
                (Z.of_nat (length examps) <=? INT_MAX)
                && forallb (example_ok st items KU KM d zU zM resids) examps)
       (take (Z.to_nat numUsers) (jget st exampsByUser)).

(** What [sampleOffsets] may change: nothing but the contents of the array
    [c] and the state of the generator. *)
Definition frame (c : dptr) (st st' : state) : Prop :=
  (forall p, uget st' p = uget st p)
  /\ (forall p, jget st' p = jget st p)
  /\ (forall p, p <> c -> dget st' p = dget st p)
  /\ length (dget st' c) = length (dget st c).

(** ** The two calls of the entry point, and the driver of the specification *)

Definition user_phase (m : model) (st : state) : option state :=
  sampleOffsets Pusers Pitems PexampsByUser (m_KU m) (m_KM m) (m_numUsers m)
    (d_div d_one (m_sigmaSqd m)) (d_div d_one (m_sigmaSqd0 m)) (m_c0 m)
    Pc Pd PzU PzM Presids st.

Definition item_phase (m : model) (st : state) : option state :=
  sampleOffsets Pitems Pusers PexampsByItem (m_KM m) (m_KU m) (m_numItems m)
    (d_div d_one (m_sigmaSqd m)) (d_div d_one (m_sigmaSqd0 m)) (m_d0 m)
    Pd Pc PzM PzU Presids st.

(** The driver in the words of the specification (section 4.2): step 1 "if
    [KM > 0] and [sampleUserParams]", step 2 "if [KU > 0] and
    [sampleItemParams]", one after the other. *)
Definition runOffsetUpdate (m : model) (sampleUserParams sampleItemParams : bool)
    (st : state) : option state :=
  st1 ← (if (0 <? m_KM m) && sampleUserParams then user_phase m st else Some st);
  if (0 <? m_KU m) && sampleItemParams then item_phase m st1 else Some st1.

(** "Both flags default to sample when not supplied." *)
Definition flag_or_default (sampParams : option (list bool)) (k : nat) : bool :=
  match sampParams with
  | None => true
  | Some flags => default true (flags !! k)
  end.

(** The optional seventh argument, when passed, holds the two flags. *)
Definition flags_ok (sampParams : option (list bool)) : bool :=
  match sampParams with
  | None => true
  | Some flags => 2 <=? Z.of_nat (length flags)
  end.

Definition user_ok (m : model) (st : state) : bool :=
  side_ok st Pitems PexampsByUser (m_KU m) (m_KM m) (m_numUsers m)
    Pc Pd PzU PzM Presids.

Definition item_ok (m : model) (st : state) : bool :=
  side_ok st Pusers PexampsByItem (m_KM m) (m_KU m) (m_numItems m)
    Pd Pc PzM PzU Presids.

End Sampler.

(** ** The laws of exact arithmetic

    The laws of the real numbers that the reduction of the posterior to the
    prior rests on.  Rounded arithmetic does not satisfy them; they are an
    explicit premise wherever they are used. *)
Record ExactArith (D : Type) {ops : DoubleOps D} : Prop := {
  exact_of_int_0 : d_of_int 0 = d_zero;
  exact_mul_0_l : forall x : D, d_mul d_zero x = d_zero;
  exact_add_0_r : forall x : D, d_add x d_zero = x;
  exact_mul_comm : forall x y : D, d_mul x y = d_mul y x;
  exact_mul_inv : forall x a : D, a <> d_zero -> d_mul (d_mul x a) (d_div d_one a) = x
}.

(** ** Two arithmetics *)

(** The real numbers: the arithmetic of the specification. *)
#[global] Instance R_ops : DoubleOps R := {|
  d_zero := 0%R;
  d_one := 1%R;
  d_add := Rplus;
  d_sub := Rminus;
  d_mul := Rmult;
  d_div := Rdiv;
  d_sqrt := R_sqrt.sqrt;
  d_of_int := IZR
|}.

(** IEEE 754 binary64: the arithmetic of the machine.  The conversion of an
    [int] is exact, every intermediate value being an integer below 2^53. *)
Fixpoint float_of_pos (p : positive) : PrimFloat.float :=
  match p with
  | xH => PrimFloat.one
  | xO q => PrimFloat.mul PrimFloat.two (float_of_pos q)
  | xI q => PrimFloat.add (PrimFloat.mul PrimFloat.two (float_of_pos q)) PrimFloat.one
  end.

Definition float_of_int (z : Z) : PrimFloat.float :=
  match z with
  | Z0 => PrimFloat.zero
  | Zpos p => float_of_pos p
  | Zneg p => PrimFloat.opp (float_of_pos p)
  end.

#[global] Instance float_ops : DoubleOps PrimFloat.float := {|
  d_zero := PrimFloat.zero;
  d_one := PrimFloat.one;
  d_add := PrimFloat.add;
  d_sub := PrimFloat.sub;
  d_mul := PrimFloat.mul;
  d_div := PrimFloat.div;
  d_sqrt := PrimFloat.sqrt;
  d_of_int := float_of_int
|}.

(** ** A small data set

    Two users, two items, two topics on either side and the four ratings
    (user, item) = (1,1), (1,2), (2,1), (2,2), in any arithmetic. *)
Section Fixture.

Context {D : Type} {ops : DoubleOps D}.

Definition fixture_state : @state D :=
  mkState [1; 1; 2; 2] [1; 2; 1; 2]
          [1; 2; 1; 2] [2; 1; 1; 2]
          [[1; 2]; [3; 4]] [[1; 3]; [2; 4]]
          [d_of_int 1; d_of_int 2; d_of_int 3; d_of_int 4]
          [d_of_int 5; d_of_int 6; d_of_int 7; d_of_int 8]
          [d_of_int 1; d_of_int 0; d_of_int 2; d_of_int 3]
          0.

(** The same data with other offsets [c] at entry. *)
Definition fixture_state_alt : @state D :=
  dset fixture_state Pc [d_of_int 0; d_of_int 9; d_of_int 4; d_of_int 1].

Definition fixture_model : @model D :=
  mkModel 2 2 2 2 d_one d_one (d_of_int 1) (d_of_int 2).

(** A generator that yields the same deviate at every draw. *)
Definition constant_deviates (g : D) : nat -> D := fun _ => g.

End Fixture.

(** * Properties *)

(** ** The embedding on concrete inputs *)

Example wrap32_below_zero : wrap32 (0 - 1) = 4294967295.
Proof. reflexivity. Qed.

Example to_int_all_ones : to_int (wrap32 (0 - 1)) = -1.
Proof. reflexivity. Qed.

(** User 1 of the small data set, in binary64 with every deviate 1/2: its
    example 1 feeds slot 2 with [1 - d[0] = 0], so the second entry of its
    row is [(1*1 + 0*1) * 1/2 + sqrt(1/2) * 1/2]. *)
Example user_phase_binary64 :
  (st1 ← user_phase (constant_deviates 0.5%float) fixture_model fixture_state;
   dload st1 Pc 1)
  = Some (PrimFloat.add 0.5 (PrimFloat.mul (PrimFloat.sqrt 0.5) 0.5))%float.
Proof. vm_compute. reflexivity. Qed.

(** Item 1 has no example with user topic 2: slot 2 of its row is the prior
    mean 2 plus [sqrt(1/1) * 1/2]. *)
Example item_phase_binary64 :
  (st1 ← item_phase (constant_deviates 0.5%float) fixture_model fixture_state;
   dload st1 Pd 1)
  = Some 2.5%float.
Proof. vm_compute. reflexivity. Qed.

(** A topic id 0 makes line 102 compute the slot -1: the behaviour of the
    call is undefined. *)
Example topic_zero_undefined :
  user_phase (constant_deviates 0.5%float) fixture_model
    (mkState [1; 1; 2; 2] [1; 2; 1; 2] [1; 2; 1; 2] [0; 1; 1; 2]
       [[1; 2]; [3; 4]] [[1; 3]; [2; 4]]
       (st_resids fixture_state) (st_c fixture_state) (st_d fixture_state) 0)
  = None.
Proof. vm_compute. reflexivity. Qed.

(** A seventh argument with one flag only: the second guard reads past it. *)
Example short_flags_undefined :
  mexFunction (constant_deviates 0.5%float) fixture_model (Some [false]) fixture_state
  = None.
Proof. vm_compute. reflexivity. Qed.

(** ** Machine integers *)

Lemma wrap32_small z : 0 <= z < UINT32_MOD -> wrap32 z = z.
Proof. intros Hz. unfold wrap32. apply Z.mod_small. exact Hz. Qed.

(** The index that line 105 computes step by step in [uint32_t] is the
    index [(it - 1) * KU + (zu - 1)] taken modulo 2^32. *)
Lemma offset_index_wrap it KU zu :
  wrap32 (wrap32 (wrap32 (it - 1) * wrap32 KU) + wrap32 (zu - 1))
  = wrap32 ((it - 1) * KU + (zu - 1)).
Proof.
  unfold wrap32.
  rewrite <- Z.mul_mod by (unfold UINT32_MOD; lia).
  rewrite <- Z.add_mod by (unfold UINT32_MOD; lia).
  reflexivity.
Qed.

Lemma to_int_small z : 0 <= z <= INT_MAX -> to_int z = z.
Proof.
  intros Hz. unfold to_int.
  destruct (Z.leb_spec z INT_MAX); [reflexivity | lia].
Qed.

Lemma int_range_small z : 0 <= z <= INT_MAX -> int_range z = Some z.
Proof.
  intros Hz. unfold int_range.
  assert (0 < INT_MAX) by (unfold INT_MAX; lia).
  destruct (Z.leb_spec (- INT_MAX - 1) z); [| lia].
  destruct (Z.leb_spec z INT_MAX); [reflexivity | lia].
Qed.

(** ** Arrays *)

Section ArrayFacts.

Context {A : Type}.
Implicit Types (a : list A) (i k : Z) (v x : A).

Lemma aread_Some a i x :
  aread a i = Some x -> 0 <= i < Z.of_nat (length a).
Proof.
  unfold aread. destruct (Z.leb_spec 0 i) as [Hi | Hi]; [| discriminate].
  intros Hl. apply lookup_lt_Some in Hl. lia.
Qed.

Lemma aread_is_Some a i :
  0 <= i < Z.of_nat (length a) -> exists x, aread a i = Some x.
Proof.
  intros [Hi Hlt]. unfold aread.
  destruct (Z.leb_spec 0 i) as [_ | Hneg]; [| lia].
  destruct (lookup_lt_is_Some_2 a (Z.to_nat i)) as [x Hx]; [lia |].
  exists x. exact Hx.
Qed.

Lemma in_bounds_spec a i :
  in_bounds a i = true <-> 0 <= i < Z.of_nat (length a).
Proof.
  unfold in_bounds. rewrite andb_true_iff, Z.leb_le, Z.ltb_lt. reflexivity.
Qed.

Lemma awrite_in_bounds a i v :
  0 <= i < Z.of_nat (length a) -> awrite a i v = Some (<[Z.to_nat i := v]> a).
Proof.
  intros Hi. unfold awrite.
  destruct (Z.leb_spec 0 i); [| lia].
  destruct (Z.ltb_spec i (Z.of_nat (length a))); [reflexivity | lia].
Qed.

Lemma aread_insert a i v k :
  0 <= i < Z.of_nat (length a) ->
  aread (<[Z.to_nat i := v]> a) k = if decide (k = i) then Some v else aread a k.
Proof.
  intros Hi. unfold aread.
  destruct (decide (k = i)) as [-> | Hne].
  - destruct (Z.leb_spec 0 i); [| lia].
    apply list_lookup_insert_eq. lia.
  - destruct (Z.leb_spec 0 k); [| reflexivity].
    apply list_lookup_insert_ne. lia.
Qed.

(** A store that succeeds changes the cell it names and no other. *)
Lemma awrite_spec a i v :
  0 <= i < Z.of_nat (length a) ->
  exists a', awrite a i v = Some a'
    /\ length a' = length a
    /\ forall k, aread a' k = if decide (k = i) then Some v else aread a k.
Proof.
  intros Hi. exists (<[Z.to_nat i := v]> a). split; [| split].
  - apply awrite_in_bounds. exact Hi.
  - apply length_insert.
  - intros k. apply aread_insert. exact Hi.
Qed.

(** Two arrays of one length with the same cells are the same array. *)
Lemma aread_ext a b :
  length a = length b ->
  (forall k, 0 <= k < Z.of_nat (length a) -> aread a k = aread b k) -> a = b.
Proof.
  intros Hlen Hk. apply list_eq. intros n.
  destruct (decide (n < length a)%nat) as [Hn | Hn].
  - specialize (Hk (Z.of_nat n)). unfold aread in Hk.
    destruct (Z.leb_spec 0 (Z.of_nat n)); [| lia].
    rewrite Nat2Z.id in Hk. apply Hk. lia.
  - rewrite !lookup_ge_None_2 by lia. reflexivity.
Qed.

End ArrayFacts.

(** ** Loops *)

(** The rule of the counted loop: an invariant that holds at the start and
    that every round re-establishes holds at the end, and the loop ends. *)
Lemma for_loop_inv {T : Type} (body : Z -> T -> option T) (P : Z -> T -> Prop)
    (n : nat) :
  forall (i : Z) (s : T),
    P i s ->
    (forall k t, i <= k < i + Z.of_nat n -> P k t ->
       exists t', body k t = Some t' /\ P (k + 1) t') ->
    exists t', for_loop body i n s = Some t' /\ P (i + Z.of_nat n) t'.
Proof.
  induction n as [| n IH]; intros i s Hs Hstep.
  - exists s. split; [reflexivity |].
    replace (i + Z.of_nat 0) with i by lia. exact Hs.
  - destruct (Hstep i s) as (s1 & Hb & Hs1); [lia | exact Hs |].
    destruct (IH (i + 1) s1 Hs1) as (t' & Hloop & Ht').
    { intros k t Hk Hkt. apply Hstep; [lia | exact Hkt]. }
    exists t'. split.
    + simpl. rewrite Hb. simpl. exact Hloop.
    + replace (i + Z.of_nat (S n)) with (i + 1 + Z.of_nat n) by lia. exact Ht'.
Qed.

(** ** The memory *)

Section MemoryFacts.

Context {D : Type} {ops : DoubleOps D}.
Implicit Types (st : @state D) (p q c : dptr) (a : list D).

Lemma dget_dset st p a q :
  dget (dset st p a) q = if decide (q = p) then a else dget st q.
Proof. destruct p, q; reflexivity. Qed.

Lemma uget_dset st p a r : uget (dset st p a) r = uget st r.
Proof. destruct p, r; reflexivity. Qed.

Lemma jget_dset st p a r : jget (dset st p a) r = jget st r.
Proof. destruct p, r; reflexivity. Qed.

Lemma st_rng_dset st p a : st_rng (dset st p a) = st_rng st.
Proof. destruct p; reflexivity. Qed.

Lemma frame_refl c st : frame c st st.
Proof. repeat split; intros; reflexivity. Qed.

Lemma frame_trans c st1 st2 st3 :
  frame c st1 st2 -> frame c st2 st3 -> frame c st1 st3.
Proof.
  intros (Hu1 & Hj1 & Hd1 & Hl1) (Hu2 & Hj2 & Hd2 & Hl2).
  repeat split.
  - intros p. rewrite Hu2. apply Hu1.
  - intros p. rewrite Hj2. apply Hj1.
  - intros p Hp. rewrite Hd2 by exact Hp. apply Hd1. exact Hp.
  - rewrite Hl2. exact Hl1.
Qed.

Lemma frame_uload c st st' r i : frame c st st' -> uload st' r i = uload st r i.
Proof. intros (Hu & _). unfold uload. rewrite Hu. reflexivity. Qed.

Lemma frame_dload c st st' p i :
  frame c st st' -> p <> c -> dload st' p i = dload st p i.
Proof. intros (_ & _ & Hd & _) Hp. unfold dload. rewrite Hd by exact Hp. reflexivity. Qed.

Lemma frame_dget_length c st st' p :
  frame c st st' -> length (dget st' p) = length (dget st p).
Proof.
  intros (_ & _ & Hd & Hl). destruct (decide (p = c)) as [-> | Hp].
  - exact Hl.
  - rewrite Hd by exact Hp. reflexivity.
Qed.

(** A state is determined by its arrays and the state of the generator. *)
Lemma state_ext st st' :
  (forall r, uget st' r = uget st r) ->
  (forall r, jget st' r = jget st r) ->
  (forall p, dget st' p = dget st p) ->
  st_rng st' = st_rng st ->
  st' = st.
Proof.
  intros Hu Hj Hd Hr. destruct st, st'.
  pose proof (Hu Pusers) as H1. pose proof (Hu Pitems) as H2.
  pose proof (Hu PzU) as H3. pose proof (Hu PzM) as H4.
  pose proof (Hj PexampsByUser) as H5. pose proof (Hj PexampsByItem) as H6.
  pose proof (Hd Pc) as H7. pose proof (Hd Pd) as H8. pose proof (Hd Presids) as H9.
  simpl in *. congruence.
Qed.

(** A store inside the array succeeds; it changes one cell of one array. *)
Lemma dstore_spec st p i (v : D) :
  0 <= i < Z.of_nat (length (dget st p)) ->
  exists st', dstore st p i v = Some st'
    /\ frame p st st'
    /\ st_rng st' = st_rng st
    /\ forall k, dload st' p k = if decide (k = i) then Some v else dload st p k.
Proof.
  intros Hi. destruct (awrite_spec (dget st p) i v Hi) as (a' & Hw & Hlen & Hk).
  exists (dset st p a'). split; [| split; [| split]].
  - unfold dstore. rewrite Hw. reflexivity.
  - repeat split.
    + intros r. apply uget_dset.
    + intros r. apply jget_dset.
    + intros q Hq. rewrite dget_dset. destruct (decide (q = p)); [contradiction | reflexivity].
    + rewrite dget_dset. destruct (decide (p = p)); [exact Hlen | contradiction].
  - apply st_rng_dset.
  - intros k. unfold dload. rewrite dget_dset.
    destruct (decide (p = p)); [apply Hk | contradiction].
Qed.

(** [fillArrayD(p + ptr, n, v)] inside the array sets the [n] cells from
    [ptr] on and nothing else. *)
Lemma fillArrayD_spec st p ptr n (v : D) :
  0 <= ptr -> 0 <= n -> ptr + n <= Z.of_nat (length (dget st p)) ->
  exists st', fillArrayD p ptr n v st = Some st'
    /\ frame p st st'
    /\ st_rng st' = st_rng st
    /\ forall k, dload st' p k
                 = if decide (ptr <= k < ptr + n) then Some v else dload st p k.
Proof.
  intros Hptr Hn Hlen. unfold fillArrayD.
  destruct (for_loop_inv (fun i st => dstore st p (ptr + i) v)
    (fun i st' => frame p st st' /\ st_rng st' = st_rng st
       /\ forall k, dload st' p k
                    = if decide (ptr <= k < ptr + i) then Some v else dload st p k)
    (Z.to_nat n) 0 st) as (st' & Hrun & Hfr & Hrng & Hk).
  - split; [apply frame_refl |]. split; [reflexivity |].
    intros k. destruct (decide (ptr <= k < ptr + 0)); [lia | reflexivity].
  - intros i t Hi (Hfr & Hrng & Hk).
    destruct (dstore_spec t p (ptr + i) v) as (t' & Hst & Hfr' & Hrng' & Hk').
    { rewrite (frame_dget_length p st t p Hfr). lia. }
    exists t'. split; [exact Hst |]. split; [| split].
    + eapply frame_trans; eassumption.
    + congruence.
    + intros k. rewrite Hk', Hk.
      destruct (decide (k = ptr + i)); destruct (decide (ptr <= k < ptr + i));
        destruct (decide (ptr <= k < ptr + (i + 1))); try reflexivity; lia.
  - exists st'. split; [exact Hrun |]. split; [exact Hfr |]. split; [exact Hrng |].
    intros k. rewrite Hk. replace (0 + Z.of_nat (Z.to_nat n)) with n by lia.
    reflexivity.
Qed.

(** [fillArrayI(buf, n, v)] inside the buffer initialises its first [n] cells. *)
Lemma fillArrayI_spec (buf : list (option Z)) n v :
  0 <= n <= Z.of_nat (length buf) ->
  exists buf', fillArrayI n v buf = Some buf'
    /\ length buf' = length buf
    /\ forall k, aread buf' k
                 = if decide (0 <= k < n) then Some (Some v) else aread buf k.
Proof.
  intros Hn. unfold fillArrayI.
  destruct (for_loop_inv (fun i buf => awrite buf i (Some v))
    (fun i buf' => length buf' = length buf
       /\ forall k, aread buf' k
                    = if decide (0 <= k < i) then Some (Some v) else aread buf k)
    (Z.to_nat n) 0 buf) as (buf' & Hrun & Hlen & Hk).
  - split; [reflexivity |]. intros k.
    destruct (decide (0 <= k < 0)); [lia | reflexivity].
  - intros i t Hi (Hlen & Hk).
    destruct (awrite_spec t i (Some v)) as (t' & Hw & Hlen' & Hk'); [lia |].
    exists t'. split; [exact Hw |]. split; [congruence |].
    intros k. rewrite Hk', Hk.
    destruct (decide (k = i)); destruct (decide (0 <= k < i));
      destruct (decide (0 <= k < i + 1)); try reflexivity; lia.
  - exists buf'. split; [exact Hrun |]. split; [exact Hlen |].
    intros k. rewrite Hk. replace (0 + Z.of_nat (Z.to_nat n)) with n by lia.
    reflexivity.
Qed.

End MemoryFacts.

(** ** The statistics of an adjacency list *)

Section StatFacts.

Context {D : Type} {ops : DoubleOps D}.
Implicit Types (st : @state D) (c d resids : dptr) (items zU zM : uptr).

Lemma topic_examples_snoc st zM l ex i :
  topic_examples st zM (l ++ [ex]) i
  = if decide (slot_of st zM ex = i) then topic_examples st zM l i ++ [ex]
    else topic_examples st zM l i.
Proof.
  unfold topic_examples. rewrite filter_app, filter_cons, filter_nil.
  destruct (decide (slot_of st zM ex = i)); [reflexivity | apply app_nil_r].
Qed.

Lemma topic_count_snoc st zM l ex i :
  topic_count st zM (l ++ [ex]) i
  = if decide (slot_of st zM ex = i) then topic_count st zM l i + 1
    else topic_count st zM l i.
Proof.
  unfold topic_count. rewrite topic_examples_snoc.
  destruct (decide (slot_of st zM ex = i)); [| reflexivity].
  rewrite length_app. simpl. lia.
Qed.

Lemma topic_sum_snoc st items KU d zU zM resids l ex i :
  topic_sum st items KU d zU zM resids (l ++ [ex]) i
  = if decide (slot_of st zM ex = i)
    then d_add (topic_sum st items KU d zU zM resids l i)
               (contribution st items KU d zU resids ex)
    else topic_sum st items KU d zU zM resids l i.
Proof.
  unfold topic_sum. rewrite topic_examples_snoc.
  destruct (decide (slot_of st zM ex = i)); [| reflexivity].
  rewrite fold_left_app. reflexivity.
Qed.

Lemma topic_count_bound st zM l i :
  0 <= topic_count st zM l i <= Z.of_nat (length l).
Proof.
  unfold topic_count, topic_examples.
  pose proof (length_filter (fun ex => slot_of st zM ex = i) l). lia.
Qed.

(** The statistics read the arrays other than [c] only. *)
Lemma slot_of_frame c st st' zM ex :
  frame c st st' -> slot_of st' zM ex = slot_of st zM ex.
Proof. intros Hfr. unfold slot_of. rewrite (frame_uload c st st' zM _ Hfr). reflexivity. Qed.

Lemma contribution_frame c st st' items KU d zU resids ex :
  frame c st st' -> d <> c -> resids <> c ->
  contribution st' items KU d zU resids ex = contribution st items KU d zU resids ex.
Proof.
  intros Hfr Hd Hr. unfold contribution.
  rewrite !(frame_uload c st st' _ _ Hfr).
  rewrite (frame_dload c st st' resids _ Hfr Hr).
  rewrite (frame_dload c st st' d _ Hfr Hd). reflexivity.
Qed.

Lemma topic_examples_frame c st st' zM l i :
  frame c st st' -> topic_examples st' zM l i = topic_examples st zM l i.
Proof.
  intros Hfr. unfold topic_examples. induction l as [| ex l IH]; [reflexivity |].
  rewrite !filter_cons, IH, (slot_of_frame c st st' zM ex Hfr). reflexivity.
Qed.

Lemma topic_count_frame c st st' zM l i :
  frame c st st' -> topic_count st' zM l i = topic_count st zM l i.
Proof. intros Hfr. unfold topic_count. rewrite (topic_examples_frame c st st' zM l i Hfr). reflexivity. Qed.

Lemma topic_sum_frame c st st' items KU d zU zM resids l i :
  frame c st st' -> d <> c -> resids <> c ->
  topic_sum st' items KU d zU zM resids l i = topic_sum st items KU d zU zM resids l i.
Proof.
  intros Hfr Hd Hr. unfold topic_sum.
  rewrite (topic_examples_frame c st st' zM l i Hfr).
  generalize (@d_zero D ops).
  induction (topic_examples st zM l i) as [| ex t IH]; intros acc; [reflexivity |].
  simpl. rewrite (contribution_frame c st st' items KU d zU resids ex Hfr Hd Hr).
  apply IH.
Qed.

(** Every entry of a list whose slots lie in [[0, n)] is counted once. *)
Lemma sum_upto_ext n f g :
  (forall i, 0 <= i < Z.of_nat n -> f i = g i) -> sum_upto n f = sum_upto n g.
Proof.
  induction n as [| n IH]; intros Hfg; [reflexivity |].
  simpl. rewrite IH, (Hfg (Z.of_nat n)) by (intros; try apply Hfg; lia).
  reflexivity.
Qed.

Lemma sum_upto_zero n : sum_upto n (fun _ => 0) = 0.
Proof. induction n as [| n IH]; [reflexivity |]. simpl. rewrite IH. reflexivity. Qed.

Lemma sum_upto_add n f g :
  sum_upto n (fun i => f i + g i) = sum_upto n f + sum_upto n g.
Proof. induction n as [| n IH]; [reflexivity |]. simpl. rewrite IH. lia. Qed.

Lemma sum_upto_indicator n s :
  0 <= s < Z.of_nat n ->
  sum_upto n (fun i => if decide (s = i) then 1 else 0) = 1.
Proof.
  induction n as [| n IH]; intros Hs; [lia |].
  simpl. destruct (decide (s = Z.of_nat n)) as [-> | Hne].
  - rewrite (sum_upto_ext n _ (fun _ => 0)), sum_upto_zero; [reflexivity |].
    intros i Hi. destruct (decide (Z.of_nat n = i)); [lia | reflexivity].
  - rewrite IH by lia. lia.
Qed.

Lemma topic_count_total st zM l n :
  (forall ex, ex ∈ l -> 0 <= slot_of st zM ex < Z.of_nat n) ->
  sum_upto n (topic_count st zM l) = Z.of_nat (length l).
Proof.
  induction l as [| ex l IH] using rev_ind; intros Hl.
  - simpl. apply sum_upto_zero.
  - rewrite (sum_upto_ext n _
      (fun i => topic_count st zM l i
                + (if decide (slot_of st zM ex = i) then 1 else 0))).
    + rewrite sum_upto_add, IH, sum_upto_indicator, length_app; simpl; [lia | |].
      * apply Hl. apply elem_of_app. right. apply list_elem_of_singleton. reflexivity.
      * intros ex' Hex'. apply Hl. apply elem_of_app. left. exact Hex'.
    + intros i _. rewrite topic_count_snoc.
      destruct (decide (slot_of st zM ex = i)); lia.
Qed.

End StatFacts.

(** ** Usable inputs *)

Lemma forallb_pointwise {A : Type} (f g : A -> bool) (l : list A) :
  (forall x, f x = g x) -> forallb f l = forallb g l.
Proof.
  intros Hfg. induction l as [| x l IH]; [reflexivity |].
  simpl. rewrite Hfg, IH. reflexivity.
Qed.

Section InputFacts.

Context {D : Type} {ops : DoubleOps D}.
Implicit Types (st : @state D) (c d resids : dptr) (items zU zM : uptr).

(** What a usable adjacency entry provides. *)
Lemma example_ok_inv st items KU KM d zU zM resids ex :
  example_ok st items KU KM d zU zM resids ex = true ->
  1 <= ex < UINT32_MOD
  /\ exists zm r,
       uload st zM (ex - 1) = Some zm
       /\ dload st resids (ex - 1) = Some r
       /\ 1 <= zm <= KM
       /\ (0 < KU ->
           exists it zu dv,
             uload st items (ex - 1) = Some it
             /\ uload st zU (ex - 1) = Some zu
             /\ 0 <= (it - 1) * KU + (zu - 1) < UINT32_MOD
             /\ dload st d ((it - 1) * KU + (zu - 1)) = Some dv).
Proof.
  unfold example_ok. intros H.
  apply andb_true_iff in H as [H Hrest].
  apply andb_true_iff in H as [H1 H2].
  apply Z.leb_le in H1. apply Z.ltb_lt in H2. split; [lia |].
  destruct (uload st zM (ex - 1)) as [zm |]; [| discriminate].
  destruct (dload st resids (ex - 1)) as [r |]; [| discriminate].
  apply andb_true_iff in Hrest as [H Hku].
  apply andb_true_iff in H as [H3 H4].
  apply Z.leb_le in H3. apply Z.leb_le in H4.
  exists zm, r. repeat split; try lia.
  intros HKU. destruct (Z.ltb_spec 0 KU); [| lia].
  destruct (uload st items (ex - 1)) as [it |]; [| discriminate].
  destruct (uload st zU (ex - 1)) as [zu |]; [| discriminate].
  apply andb_true_iff in Hku as [H5 H6].
  apply Z.ltb_lt in H5. apply in_bounds_spec in H6.
  destruct (aread_is_Some (dget st d) _ H6) as [dv Hdv].
  exists it, zu, dv. repeat split; try reflexivity; try lia. exact Hdv.
Qed.

Lemma aread_same_length {A : Type} (a b : list A) i :
  length a = length b ->
  match aread a i, aread b i with
  | Some _, Some _ | None, None => True
  | _, _ => False
  end.
Proof.
  intros Hlen.
  destruct (aread a i) as [x |] eqn:Ha; destruct (aread b i) as [y |] eqn:Hb;
    try exact I.
  - apply aread_Some in Ha. rewrite Hlen in Ha.
    destruct (aread_is_Some b i Ha) as [y Hy]. congruence.
  - apply aread_Some in Hb. rewrite <- Hlen in Hb.
    destruct (aread_is_Some a i Hb) as [x Hx]. congruence.
Qed.

(** Whether an entry is usable depends on the integer arrays and on the
    sizes of the others, which a call never changes. *)
Lemma example_ok_frame c st st' items KU KM d zU zM resids ex :
  frame c st st' ->
  example_ok st' items KU KM d zU zM resids ex
  = example_ok st items KU KM d zU zM resids ex.
Proof.
  intros Hfr. unfold example_ok, in_bounds.
  rewrite !(frame_uload c st st' _ _ Hfr).
  rewrite (frame_dget_length c st st' d Hfr).
  pose proof (aread_same_length (dget st' resids) (dget st resids) (ex - 1)
                (frame_dget_length c st st' resids Hfr)) as Hr.
  unfold dload.
  destruct (aread (dget st' resids) (ex - 1)), (aread (dget st resids) (ex - 1));
    try contradiction; reflexivity.
Qed.

Lemma side_ok_frame c0 st st' items exampsByUser KU KM numUsers c d zU zM resids :
  frame c0 st st' ->
  side_ok st' items exampsByUser KU KM numUsers c d zU zM resids
  = side_ok st items exampsByUser KU KM numUsers c d zU zM resids.
Proof.
  intros Hfr. unfold side_ok.
  rewrite (frame_dget_length c0 st st' c Hfr).
  destruct Hfr as (Hu & Hj & Hd & Hl). rewrite Hj.
  f_equal. apply forallb_pointwise. intros examps. f_equal.
  apply forallb_pointwise. intros ex.
  apply (example_ok_frame c0). repeat split; assumption.
Qed.

(** What usable inputs of a call provide. *)
Lemma side_ok_inv st items exampsByUser KU KM numUsers c d zU zM resids :
  side_ok st items exampsByUser KU KM numUsers c d zU zM resids = true ->
  0 <= KM /\ 0 <= numUsers /\ numUsers * KM <= INT_MAX
  /\ numUsers * KM <= Z.of_nat (length (dget st c))
  /\ numUsers <= Z.of_nat (length (jget st exampsByUser))
  /\ forall u, 0 <= u < numUsers ->
       exists examps,
         aread (jget st exampsByUser) u = Some examps
         /\ Z.of_nat (length examps) <= INT_MAX
         /\ forall ex, ex ∈ examps ->
              example_ok st items KU KM d zU zM resids ex = true.
Proof.
  unfold side_ok. intros H.
  apply andb_true_iff in H as [H Hall].
  apply andb_true_iff in H as [H H5]. apply andb_true_iff in H as [H H4].
  apply andb_true_iff in H as [H H3]. apply andb_true_iff in H as [H1 H2].
  apply Z.leb_le in H1, H2, H3, H4, H5.
  repeat (split; [assumption |]).
  intros u Hu.
  destruct (aread_is_Some (jget st exampsByUser) u) as [examps Hex]; [lia |].
  exists examps. split; [exact Hex |].
  rewrite forallb_forall in Hall.
  assert (Hin : In examps (take (Z.to_nat numUsers) (jget st exampsByUser))).
  { apply list_elem_of_In. apply list_elem_of_lookup. exists (Z.to_nat u).
    unfold aread in Hex. destruct (Z.leb_spec 0 u); [| lia].
    rewrite lookup_take_lt by lia. exact Hex. }
  apply Hall in Hin. apply andb_true_iff in Hin as [Hlen Hexs].
  apply Z.leb_le in Hlen. split; [exact Hlen |].
  intros ex Hexin. rewrite forallb_forall in Hexs. apply Hexs.
  apply list_elem_of_In. exact Hexin.
Qed.

End InputFacts.

(** ** The loop over the examples of an entity *)

Lemma INT_MAX_val : INT_MAX = 2147483647.
Proof. reflexivity. Qed.

Lemma UINT32_MOD_val : UINT32_MOD = 4294967296.
Proof. reflexivity. Qed.

Section CallFacts.

Context {D : Type} {ops : DoubleOps D}.
Variable deviates : nat -> D.
Variables (items : uptr) (KU KM : Z) (c d : dptr) (zU zM : uptr) (resids : dptr).
Hypothesis d_not_c : d <> c.
Hypothesis resids_not_c : resids <> c.

Implicit Types (st : @state D) (counts : list (option Z)).

(** The contribution of a usable entry, from the loads it is made of. *)
Lemma contribution_eq st0 ex zm r :
  uload st0 zM (ex - 1) = Some zm ->
  dload st0 resids (ex - 1) = Some r ->
  slot_of st0 zM ex = zm - 1
  /\ (KU <= 0 -> contribution st0 items KU d zU resids ex = r)
  /\ (forall it zu dv,
        0 < KU ->
        uload st0 items (ex - 1) = Some it ->
        uload st0 zU (ex - 1) = Some zu ->
        dload st0 d ((it - 1) * KU + (zu - 1)) = Some dv ->
        contribution st0 items KU d zU resids ex = d_sub r dv).
Proof.
  intros Hzm Hr. split; [| split].
  - unfold slot_of. rewrite Hzm. reflexivity.
  - intros HKU. unfold contribution. rewrite Hr.
    destruct (Z.ltb_spec 0 KU); [lia | reflexivity].
  - intros it zu dv HKU Hit Hzu Hdv. unfold contribution.
    rewrite Hr, Hit, Hzu. simpl. rewrite Hdv.
    destruct (Z.ltb_spec 0 KU); [reflexivity | lia].
Qed.

(** One round on a usable entry [ex]: the slot [zM[e] - 1] of the row
    receives the contribution of [ex], and its count goes up by one. *)
Lemma accum_body_spec st0 st counts cPtr ex (sums : Z -> D) (cnts : Z -> Z) :
  frame c st0 st ->
  example_ok st0 items KU KM d zU zM resids ex = true ->
  KM <= INT_MAX -> 0 <= cPtr ->
  cPtr + KM <= Z.of_nat (length (dget st c)) ->
  (forall i, 0 <= i < KM ->
     dload st c (cPtr + i) = Some (sums i)
     /\ aread counts i = Some (Some (cnts i))
     /\ 0 <= cnts i < INT_MAX) ->
  let s := slot_of st0 zM ex in
  0 <= s < KM
  /\ exists st' counts',
       accum_body items KU c d zU zM resids cPtr ex (st, counts) = Some (st', counts')
       /\ frame c st st'
       /\ st_rng st' = st_rng st
       /\ length counts' = length counts
       /\ (forall k, dload st' c k
                     = if decide (k = cPtr + s)
                       then Some (d_add (sums s) (contribution st0 items KU d zU resids ex))
                       else dload st c k)
       /\ (forall k, aread counts' k
                     = if decide (k = s) then Some (Some (cnts s + 1))
                       else aread counts k).
Proof.
  intros Hfr Hok HKM Hptr Hlen Hrow s.
  pose proof INT_MAX_val as HIM. pose proof UINT32_MOD_val as HUM.
  apply example_ok_inv in Hok as (Hex & zm & r & Hzm & Hr & Hzmr & Hku).
  destruct (contribution_eq st0 ex zm r Hzm Hr) as (Hs & Hc0 & Hc1).
  assert (Hsv : s = zm - 1) by exact Hs. clearbody s. subst s.
  split; [lia |].
  destruct (Hrow (zm - 1)) as (Hsum & Hcnt & Hcb); [lia |].
  assert (Hst : exists st',
    (if 0 <? KU then
       old ← dload st c (cPtr + (zm - 1));
       r ← dload st resids (ex - 1);
       it ← uload st items (ex - 1);
       zu ← uload st zU (ex - 1);
       dv ← dload st d (wrap32 (wrap32 (wrap32 (it - 1) * wrap32 KU)
                                 + wrap32 (zu - 1)));
       dstore st c (cPtr + (zm - 1)) (d_add old (d_sub r dv))
     else
       old ← dload st c (cPtr + (zm - 1));
       r ← dload st resids (ex - 1);
       dstore st c (cPtr + (zm - 1)) (d_add old r)) = Some st'
    /\ frame c st st' /\ st_rng st' = st_rng st
    /\ forall k, dload st' c k
                 = if decide (k = cPtr + (zm - 1))
                   then Some (d_add (sums (zm - 1))
                                (contribution st0 items KU d zU resids ex))
                   else dload st c k).
  { rewrite Hsum, (frame_dload c st0 st resids _ Hfr resids_not_c), Hr.
    destruct (Z.ltb_spec 0 KU) as [HKU | HKU].
    - destruct (Hku HKU) as (it & zu & dv & Hit & Hzu & Hk & Hdv).
      rewrite !(frame_uload c st0 st _ _ Hfr), Hit, Hzu.
      cbn [mbind option_bind].
      rewrite offset_index_wrap, wrap32_small by exact Hk.
      rewrite (frame_dload c st0 st d _ Hfr d_not_c), Hdv.
      cbn [mbind option_bind].
      rewrite (Hc1 it zu dv HKU Hit Hzu Hdv).
      destruct (dstore_spec st c (cPtr + (zm - 1)) (d_add (sums (zm - 1)) (d_sub r dv)))
        as (st' & Hst & Hfr' & Hrng' & Hk'); [lia |].
      exists st'. repeat split; try assumption; apply Hfr'.
    - cbn [mbind option_bind]. rewrite (Hc0 HKU).
      destruct (dstore_spec st c (cPtr + (zm - 1)) (d_add (sums (zm - 1)) r))
        as (st' & Hst & Hfr' & Hrng' & Hk'); [lia |].
      exists st'. repeat split; try assumption; apply Hfr'. }
  destruct Hst as (st' & Hst & Hfr' & Hrng' & Hk').
  destruct (awrite_spec counts (zm - 1) (Some (cnts (zm - 1) + 1)))
    as (counts' & Hw & Hlen' & Hkc).
  { apply aread_Some in Hcnt. exact Hcnt. }
  exists st', counts'.
  split; [| repeat split; try assumption; apply Hfr'].
  unfold accum_body.
  rewrite (wrap32_small (ex - 1)) by lia.
  rewrite (frame_uload c st0 st zM _ Hfr), Hzm. cbn [mbind option_bind].
  rewrite (wrap32_small (zm - 1)), (to_int_small (zm - 1)) by lia.
  rewrite Hst. cbn [mbind option_bind].
  rewrite Hcnt. cbn [mbind option_bind].
  rewrite (int_range_small (cnts (zm - 1) + 1)) by lia. cbn [mbind option_bind].
  rewrite Hw. reflexivity.
Qed.

(** The whole loop, from a zeroed row and zeroed counts: slot [i] of the row
    holds the sum, and cell [i] of the counts the number, of the entries [ex]
    of the list with [zM[ex - 1] - 1 = i]; the sum adds the contributions in
    the order of the list. *)
Lemma accum_loop_spec st0 st1 counts1 cPtr examps :
  frame c st0 st1 ->
  (forall ex, ex ∈ examps -> example_ok st0 items KU KM d zU zM resids ex = true) ->
  Z.of_nat (length examps) <= INT_MAX ->
  KM <= INT_MAX -> 0 <= cPtr ->
  cPtr + KM <= Z.of_nat (length (dget st1 c)) ->
  (forall i, 0 <= i < KM ->
     dload st1 c (cPtr + i) = Some d_zero /\ aread counts1 i = Some (Some 0)) ->
  exists st2 counts2,
    for_loop (accum_iter items KU c d zU zM resids cPtr examps) 0
      (Z.to_nat (Z.of_nat (length examps))) (st1, counts1) = Some (st2, counts2)
    /\ frame c st1 st2
    /\ st_rng st2 = st_rng st1
    /\ length counts2 = length counts1
    /\ (forall i, 0 <= i < KM ->
          dload st2 c (cPtr + i)
          = Some (topic_sum st0 items KU d zU zM resids examps i)
          /\ aread counts2 i = Some (Some (topic_count st0 zM examps i)))
    /\ (forall k, ~ (cPtr <= k < cPtr + KM) -> dload st2 c k = dload st1 c k).
Proof.
  intros Hfr Hok Hlen HKM Hptr Hrow Hzero.
  destruct (for_loop_inv (accum_iter items KU c d zU zM resids cPtr examps)
    (fun j s =>
       frame c st1 (fst s) /\ st_rng (fst s) = st_rng st1
       /\ length (snd s) = length counts1
       /\ (forall i, 0 <= i < KM ->
             dload (fst s) c (cPtr + i)
             = Some (topic_sum st0 items KU d zU zM resids (take (Z.to_nat j) examps) i)
             /\ aread (snd s) i
                = Some (Some (topic_count st0 zM (take (Z.to_nat j) examps) i)))
       /\ (forall k, ~ (cPtr <= k < cPtr + KM) -> dload (fst s) c k = dload st1 c k))
    (Z.to_nat (Z.of_nat (length examps))) 0 (st1, counts1))
    as ([st2 counts2] & Hrun & Hfr2 & Hrng2 & Hlen2 & Hrow2 & Hout2).
  - simpl. split; [apply frame_refl |]. repeat split; try reflexivity; apply Hzero; assumption.
  - intros j [st counts] Hj (Hfrj & Hrngj & Hlenj & Hrowj & Houtj). simpl in *.
    destruct (lookup_lt_is_Some_2 examps (Z.to_nat j)) as [ex Hex]; [lia |].
    assert (Hin : ex ∈ examps) by (eapply list_elem_of_lookup_2; exact Hex).
    assert (Htake : take (Z.to_nat (j + 1)) examps = take (Z.to_nat j) examps ++ [ex]).
    { replace (Z.to_nat (j + 1)) with (S (Z.to_nat j)) by lia.
      apply take_S_r. exact Hex. }
    destruct (accum_body_spec st0 st counts cPtr ex
                (topic_sum st0 items KU d zU zM resids (take (Z.to_nat j) examps))
                (topic_count st0 zM (take (Z.to_nat j) examps)))
      as (Hs & st' & counts' & Hbody & Hfr' & Hrng' & Hlen' & Hk' & Hkc').
    + eapply frame_trans; eassumption.
    + apply Hok. exact Hin.
    + exact HKM.
    + exact Hptr.
    + rewrite (frame_dget_length c st1 st c Hfrj). exact Hrow.
    + intros i Hi. destruct (Hrowj i Hi) as [Hd Hc]. split; [exact Hd |].
      split; [exact Hc |].
      pose proof (topic_count_bound st0 zM (take (Z.to_nat j) examps) i) as Hb.
      rewrite length_take in Hb. lia.
    + exists (st', counts'). simpl. split.
      { unfold accum_iter, aread. destruct (Z.leb_spec 0 j); [| lia].
        rewrite Hex. exact Hbody. }
      split; [eapply frame_trans; eassumption |].
      split; [congruence |]. split; [congruence |]. split.
      * intros i Hi. rewrite Htake, topic_sum_snoc, topic_count_snoc, Hk', Hkc'.
        destruct (Hrowj i Hi) as [Hd Hc].
        destruct (decide (slot_of st0 zM ex = i)) as [Heq | Hne].
        -- subst i.
           destruct (decide (cPtr + slot_of st0 zM ex = cPtr + slot_of st0 zM ex));
             [| contradiction].
           destruct (decide (slot_of st0 zM ex = slot_of st0 zM ex)); [| contradiction].
           split; reflexivity.
        -- destruct (decide (cPtr + i = cPtr + slot_of st0 zM ex)); [lia |].
           destruct (decide (i = slot_of st0 zM ex)); [congruence |].
           split; assumption.
      * intros k Hk. rewrite Hk'.
        destruct (decide (k = cPtr + slot_of st0 zM ex)); [lia |].
        apply Houtj. exact Hk.
  - simpl in *. exists st2, counts2. split; [exact Hrun |].
    replace (Z.to_nat (0 + Z.of_nat (Z.to_nat (Z.of_nat (length examps)))))
      with (length examps) in Hrow2 by lia.
    rewrite firstn_all in Hrow2.
    repeat split; try assumption; apply Hfr2 || apply Hrow2; assumption.
Qed.

(** ** The body of the loop over the entities *)

(** The first half: the row of entity [u] holds the sums and the scratch
    buffer the counts of its adjacency list; no other row has changed. *)
Lemma entity_stats_spec st0 st counts userExamps u examps :
  frame c st0 st ->
  0 <= KM -> 0 <= u -> (u + 1) * KM <= INT_MAX ->
  (u + 1) * KM <= Z.of_nat (length (dget st c)) ->
  KM <= Z.of_nat (length counts) ->
  aread userExamps u = Some examps ->
  Z.of_nat (length examps) <= INT_MAX ->
  (forall ex, ex ∈ examps -> example_ok st0 items KU KM d zU zM resids ex = true) ->
  exists st2 counts2,
    entity_stats items KU KM c d zU zM resids userExamps u (st, counts)
    = Some (u * KM, (st2, counts2))
    /\ frame c st st2
    /\ st_rng st2 = st_rng st
    /\ length counts2 = length counts
    /\ (forall i, 0 <= i < KM ->
          dload st2 c (u * KM + i)
          = Some (topic_sum st0 items KU d zU zM resids examps i)
          /\ aread counts2 i = Some (Some (topic_count st0 zM examps i)))
    /\ (forall k, ~ (u * KM <= k < u * KM + KM) -> dload st2 c k = dload st c k).
Proof.
  intros Hfr HKM Hu Hmax Hlen Hcl Hex Hexl Hok.
  pose proof INT_MAX_val as HIM.
  assert (HuKM : 0 <= u * KM) by (apply Z.mul_nonneg_nonneg; assumption).
  assert (Hrow : u * KM + KM = (u + 1) * KM) by ring.
  destruct (fillArrayD_spec st c (u * KM) KM d_zero) as (st1 & Hf1 & Hfr1 & Hrng1 & Hk1);
    [lia | lia | lia |].
  destruct (fillArrayI_spec counts KM 0) as (counts1 & Hf2 & Hlen1 & Hkc1); [lia |].
  destruct (accum_loop_spec st0 st1 counts1 (u * KM) examps)
    as (st2 & counts2 & Hrun & Hfr2 & Hrng2 & Hlen2 & Hrow2 & Hout2).
  - eapply frame_trans; eassumption.
  - exact Hok.
  - exact Hexl.
  - lia.
  - exact HuKM.
  - rewrite (frame_dget_length c st st1 c Hfr1). lia.
  - intros i Hi. rewrite Hk1, Hkc1.
    destruct (decide (u * KM <= u * KM + i < u * KM + KM)); [| lia].
    destruct (decide (0 <= i < KM)); [| lia]. split; reflexivity.
  - exists st2, counts2. split; [| split; [| split; [| split; [| split]]]].
    + unfold entity_stats. rewrite (int_range_small (u * KM)) by lia.
      cbn [mbind option_bind]. rewrite Hf1. cbn [mbind option_bind].
      rewrite Hf2. cbn [mbind option_bind]. rewrite Hex. cbn [mbind option_bind].
      destruct (Z.ltb_spec INT_MAX (Z.of_nat (length examps))); [lia |].
      rewrite Hrun. reflexivity.
    + eapply frame_trans; eassumption.
    + congruence.
    + congruence.
    + exact Hrow2.
    + intros k Hk. rewrite Hout2, Hk1 by exact Hk.
      destruct (decide (u * KM <= k < u * KM + KM)); [contradiction | reflexivity].
Qed.

(** A draw advances the generator and touches no array. *)
Lemma gsl_ran_gaussian_spec st sigma :
  fst (gsl_ran_gaussian deviates st sigma) = d_mul sigma (deviates (st_rng st))
  /\ st_rng (snd (gsl_ran_gaussian deviates st sigma)) = S (st_rng st)
  /\ frame c st (snd (gsl_ran_gaussian deviates st sigma))
  /\ dget (snd (gsl_ran_gaussian deviates st sigma)) c = dget st c.
Proof. repeat split. Qed.

(** The second half: every slot of the row is replaced by the value of
    lines 113-115 for its count and sum, with consecutive deviates. *)
Lemma sample_loop_spec invSigmaSqd invSigmaSqd0 ratio st2 counts2 cPtr
    (sums : Z -> D) (cnts : Z -> Z) :
  0 <= KM -> 0 <= cPtr ->
  cPtr + KM <= Z.of_nat (length (dget st2 c)) ->
  (forall i, 0 <= i < KM ->
     dload st2 c (cPtr + i) = Some (sums i)
     /\ aread counts2 i = Some (Some (cnts i))) ->
  exists st3,
    for_loop (sample_iter deviates invSigmaSqd invSigmaSqd0 ratio c cPtr counts2)
      0 (Z.to_nat KM) st2 = Some st3
    /\ frame c st2 st3
    /\ st_rng st3 = (st_rng st2 + Z.to_nat KM)%nat
    /\ (forall i, 0 <= i < KM ->
          dload st3 c (cPtr + i)
          = Some (sampled_offset invSigmaSqd invSigmaSqd0 ratio (cnts i) (sums i)
                    (deviates (st_rng st2 + Z.to_nat i)%nat)))
    /\ (forall k, ~ (cPtr <= k < cPtr + KM) -> dload st3 c k = dload st2 c k).
Proof.
  intros HKM Hptr Hlen Hrow.
  destruct (for_loop_inv
    (sample_iter deviates invSigmaSqd invSigmaSqd0 ratio c cPtr counts2)
    (fun i t =>
       frame c st2 t /\ st_rng t = (st_rng st2 + Z.to_nat i)%nat
       /\ (forall k, 0 <= k < KM ->
             dload t c (cPtr + k)
             = if decide (k < i)
               then Some (sampled_offset invSigmaSqd invSigmaSqd0 ratio (cnts k) (sums k)
                            (deviates (st_rng st2 + Z.to_nat k)%nat))
               else Some (sums k))
       /\ (forall k, ~ (cPtr <= k < cPtr + KM) -> dload t c k = dload st2 c k))
    (Z.to_nat KM) 0 st2) as (st3 & Hrun & Hfr3 & Hrng3 & Hrow3 & Hout3).
  - split; [apply frame_refl |]. split; [simpl; lia |]. split.
    + intros k Hk. destruct (decide (k < 0)); [lia |]. apply Hrow. exact Hk.
    + intros k _. reflexivity.
  - intros i t Hi (Hfrt & Hrngt & Hrowt & Houtt).
    assert (HiKM : 0 <= i < KM) by lia.
    destruct (Hrow i HiKM) as [_ Hcnt].
    pose proof (Hrowt i HiKM) as Hold.
    destruct (decide (i < i)); [lia |].
    set (variance := d_div d_one (d_add invSigmaSqd0 (d_mul (d_of_int (cnts i)) invSigmaSqd))).
    destruct (gsl_ran_gaussian_spec t (d_sqrt variance)) as (Hg & Hrngg & Hfrg & Hdg).
    destruct (dstore_spec (snd (gsl_ran_gaussian deviates t (d_sqrt variance))) c (cPtr + i)
                (d_add (d_mul (d_add ratio (d_mul (sums i) invSigmaSqd)) variance)
                       (fst (gsl_ran_gaussian deviates t (d_sqrt variance)))))
      as (t' & Hst & Hfr' & Hrng' & Hk').
    { rewrite Hdg, (frame_dget_length c st2 t c Hfrt). lia. }
    assert (Hdl : forall k, dload (snd (gsl_ran_gaussian deviates t (d_sqrt variance))) c k
                            = dload t c k).
    { intros k. unfold dload. rewrite Hdg. reflexivity. }
    exists t'. split.
    { unfold sample_iter. rewrite Hcnt. cbn [mbind option_bind].
      rewrite Hold. cbn [mbind option_bind]. exact Hst. }
    split; [exact (frame_trans c st2 t t' Hfrt (frame_trans c t _ t' Hfrg Hfr')) |].
    split; [rewrite Hrng', Hrngg, Hrngt; lia |]. split.
    + intros k Hk. rewrite Hk', Hdl.
      destruct (decide (cPtr + k = cPtr + i)) as [Heq | Hne].
      * assert (k = i) by lia. subst k.
        destruct (decide (i < i + 1)); [| lia].
        rewrite Hg, Hrngt. reflexivity.
      * rewrite (Hrowt k Hk).
        destruct (decide (k < i)); destruct (decide (k < i + 1)); try reflexivity; lia.
    + intros k Hk. rewrite Hk', Hdl.
      destruct (decide (k = cPtr + i)); [lia |]. apply Houtt. exact Hk.
  - exists st3. split; [exact Hrun |]. split; [exact Hfr3 |].
    replace (0 + Z.of_nat (Z.to_nat KM)) with KM in * by lia.
    split; [exact Hrng3 |]. split; [| exact Hout3].
    intros i Hi. rewrite (Hrow3 i Hi). destruct (decide (i < KM)); [reflexivity | lia].
Qed.

(** The whole body for entity [u]: row [u] is rewritten from the statistics
    of the adjacency list of [u] and [KM] fresh deviates; no other row has
    changed. *)
Lemma entity_iter_spec invSigmaSqd invSigmaSqd0 ratio st0 st counts userExamps u examps :
  frame c st0 st ->
  0 <= KM -> 0 <= u -> (u + 1) * KM <= INT_MAX ->
  (u + 1) * KM <= Z.of_nat (length (dget st c)) ->
  KM <= Z.of_nat (length counts) ->
  aread userExamps u = Some examps ->
  Z.of_nat (length examps) <= INT_MAX ->
  (forall ex, ex ∈ examps -> example_ok st0 items KU KM d zU zM resids ex = true) ->
  exists st3 counts3,
    entity_iter deviates items KU KM invSigmaSqd invSigmaSqd0 ratio c d zU zM resids
      userExamps u (st, counts) = Some (st3, counts3)
    /\ frame c st st3
    /\ st_rng st3 = (st_rng st + Z.to_nat KM)%nat
    /\ length counts3 = length counts
    /\ (forall i, 0 <= i < KM ->
          dload st3 c (u * KM + i)
          = Some (sampled_offset invSigmaSqd invSigmaSqd0 ratio
                    (topic_count st0 zM examps i)
                    (topic_sum st0 items KU d zU zM resids examps i)
                    (deviates (st_rng st + Z.to_nat i)%nat)))
    /\ (forall k, ~ (u * KM <= k < u * KM + KM) -> dload st3 c k = dload st c k).
Proof.
  intros Hfr HKM Hu Hmax Hlen Hcl Hex Hexl Hok.
  destruct (entity_stats_spec st0 st counts userExamps u examps)
    as (st2 & counts2 & Hstats & Hfr2 & Hrng2 & Hlen2 & Hrow2 & Hout2); try assumption.
  assert (HuKM : 0 <= u * KM) by (apply Z.mul_nonneg_nonneg; assumption).
  destruct (sample_loop_spec invSigmaSqd invSigmaSqd0 ratio st2 counts2 (u * KM)
              (topic_sum st0 items KU d zU zM resids examps)
              (topic_count st0 zM examps))
    as (st3 & Hrun & Hfr3 & Hrng3 & Hrow3 & Hout3).
  - exact HKM.
  - exact HuKM.
  - rewrite (frame_dget_length c st st2 c Hfr2). lia.
  - exact Hrow2.
  - exists st3, counts2. split; [| split; [| split; [| split; [| split]]]].
    + unfold entity_iter. rewrite Hstats. cbn [mbind option_bind].
      rewrite Hrun. reflexivity.
    + eapply frame_trans; eassumption.
    + congruence.
    + exact Hlen2.
    + intros i Hi. rewrite (Hrow3 i Hi), Hrng2. reflexivity.
    + intros k Hk. rewrite Hout3, Hout2 by exact Hk. reflexivity.
Qed.

(** ** The call *)

Lemma aread_take {A : Type} (l : list A) (n : nat) (u : Z) :
  u < Z.of_nat n -> aread (take n l) u = aread l u.
Proof.
  intros Hu. unfold aread. destruct (Z.leb_spec 0 u); [| reflexivity].
  apply lookup_take_lt. lia.
Qed.

Lemma unpackJagged_spec (cells : list (list Z)) (n : Z) :
  n <= Z.of_nat (length cells) ->
  unpackJagged cells n = Some (take (Z.to_nat n) cells).
Proof.
  intros Hn. unfold unpackJagged.
  destruct (Z.ltb_spec (Z.of_nat (length cells)) n); [lia | reflexivity].
Qed.

Lemma mxMalloc_counts_spec (K : Z) :
  0 <= K ->
  exists buf, mxMalloc_counts K = Some buf /\ K <= Z.of_nat (length buf).
Proof.
  intros HK. unfold mxMalloc_counts, sizeof_ptr, sizeof_int.
  destruct (Z.ltb_spec K 0); [lia |].
  eexists. split; [reflexivity |].
  rewrite length_replicate.
  replace (K * 8) with (K * 2 * 4) by ring.
  rewrite Z.div_mul by lia. lia.
Qed.

(** On usable inputs [sampleOffsets] returns.  Entry [(u, i)] of [c] is the
    value of lines 113-115 for the count and the sum of slot [i] over the
    adjacency list of [u], computed on the state at entry, and for deviate
    number [u * KM + i] from the state of the generator at entry; nothing
    else has changed, and the generator has made [numUsers * KM] draws. *)
Lemma sampleOffsets_spec users exampsByUser numUsers invSigmaSqd invSigmaSqd0 c0 st :
  side_ok st items exampsByUser KU KM numUsers c d zU zM resids = true ->
  exists st',
    sampleOffsets deviates users items exampsByUser KU KM numUsers
      invSigmaSqd invSigmaSqd0 c0 c d zU zM resids st = Some st'
    /\ frame c st st'
    /\ st_rng st' = (st_rng st + Z.to_nat (numUsers * KM))%nat
    /\ (forall u i, 0 <= u < numUsers -> 0 <= i < KM ->
          dload st' c (u * KM + i)
          = Some (sampled_offset invSigmaSqd invSigmaSqd0 (d_mul c0 invSigmaSqd0)
                    (topic_count st zM (examples_of st exampsByUser u) i)
                    (topic_sum st items KU d zU zM resids
                       (examples_of st exampsByUser u) i)
                    (deviates (st_rng st + Z.to_nat (u * KM + i))%nat)))
    /\ (forall k, ~ (0 <= k < numUsers * KM) -> dload st' c k = dload st c k).
Proof.
  intros Hok.
  apply side_ok_inv in Hok as (HKM & Hn & Hmax & Hlen & Hjl & Hex).
  set (userExamps := take (Z.to_nat numUsers) (jget st exampsByUser)).
  set (ratio := d_mul c0 invSigmaSqd0).
  destruct (mxMalloc_counts_spec KM HKM) as (counts0 & Halloc & Hroom).
  destruct (for_loop_inv
    (entity_iter deviates items KU KM invSigmaSqd invSigmaSqd0 ratio c d zU zM resids
       userExamps)
    (fun u s =>
       frame c st (fst s)
       /\ st_rng (fst s) = (st_rng st + Z.to_nat (u * KM))%nat
       /\ KM <= Z.of_nat (length (snd s))
       /\ (forall v i, 0 <= v < u -> 0 <= i < KM ->
             dload (fst s) c (v * KM + i)
             = Some (sampled_offset invSigmaSqd invSigmaSqd0 ratio
                       (topic_count st zM (examples_of st exampsByUser v) i)
                       (topic_sum st items KU d zU zM resids
                          (examples_of st exampsByUser v) i)
                       (deviates (st_rng st + Z.to_nat (v * KM + i))%nat)))
       /\ (forall k, ~ (0 <= k < u * KM) -> dload (fst s) c k = dload st c k))
    (Z.to_nat numUsers) 0 (st, counts0))
    as ([st' counts'] & Hrun & Hfr' & Hrng' & _ & Hrows' & Hout').
  - simpl. split; [apply frame_refl |]. split; [lia |].
    split; [exact Hroom |].
    split; [intros v i Hv; lia | intros k _; reflexivity].
  - intros u [t counts] Hu (Hfrt & Hrngt & Hcl & Hrowst & Houtt). simpl in *.
    assert (Hu' : 0 <= u < numUsers) by lia.
    destruct (Hex u Hu') as (examps & Hexu & Hexl & Hexok).
    assert (HuKM : 0 <= u * KM) by (apply Z.mul_nonneg_nonneg; lia).
    assert (Hu1 : (u + 1) * KM <= numUsers * KM)
      by (apply Z.mul_le_mono_nonneg_r; lia).
    assert (Hexs : examples_of st exampsByUser u = examps)
      by (unfold examples_of; rewrite Hexu; reflexivity).
    destruct (entity_iter_spec invSigmaSqd invSigmaSqd0 ratio st t counts userExamps u examps)
      as (t' & counts1 & Hbody & Hfr1 & Hrng1 & Hlen1 & Hrow1 & Hout1);
      try assumption; try lia.
    { rewrite (frame_dget_length c st t c Hfrt). lia. }
    { unfold userExamps. rewrite aread_take by lia. exact Hexu. }
    exists (t', counts1). simpl. split; [exact Hbody |].
    split; [eapply frame_trans; eassumption |].
    split; [rewrite Hrng1, Hrngt; lia |].
    split; [lia |]. split.
    + intros v i Hv Hi.
      assert (HvKM : 0 <= v * KM) by (apply Z.mul_nonneg_nonneg; lia).
      destruct (decide (v = u)) as [-> | Hne].
      * rewrite (Hrow1 i Hi), Hexs, Hrngt.
        replace (st_rng st + Z.to_nat (u * KM) + Z.to_nat i)%nat
          with (st_rng st + Z.to_nat (u * KM + i))%nat by lia.
        reflexivity.
      * assert (Hv1 : (v + 1) * KM <= u * KM)
          by (apply Z.mul_le_mono_nonneg_r; lia).
        rewrite Hout1 by lia. apply Hrowst; [lia | exact Hi].
    + intros k Hk. rewrite Hout1 by lia. apply Houtt. lia.
  - simpl in *. exists st'.
    replace (0 + Z.of_nat (Z.to_nat numUsers)) with numUsers in * by lia.
    split; [| repeat split; try assumption; apply Hfr'].
    unfold sampleOffsets. rewrite unpackJagged_spec by exact Hjl.
    cbn [mbind option_bind]. rewrite Halloc. cbn [mbind option_bind].
    fold userExamps. fold ratio. rewrite Hrun. reflexivity.
Qed.

End CallFacts.

(** ** The real numbers satisfy the laws of exact arithmetic *)

Lemma R_exact : ExactArith R.
Proof.
  split; simpl.
  - reflexivity.
  - intros x. apply Rmult_0_l.
  - intros x. apply Rplus_0_r.
  - intros x y. apply Rmult_comm.
  - intros x a Ha. unfold Rdiv. rewrite Rmult_1_l, Rmult_assoc.
    rewrite Rinv_r by exact Ha. apply Rmult_1_r.
Qed.

Lemma sampled_offset_posterior_draw {D : Type} {ops : DoubleOps D}
    (invSigmaSqd invSigmaSqd0 priorMean : D) (n : Z) (s g : D) :
  (forall x y : D, d_mul x y = d_mul y x) ->
  sampled_offset invSigmaSqd invSigmaSqd0 (d_mul priorMean invSigmaSqd0) n s g
  = posterior_draw invSigmaSqd invSigmaSqd0 priorMean n s g.
Proof.
  intros Hcomm. unfold sampled_offset, posterior_draw, posterior_mean, posterior_variance.
  f_equal. apply Hcomm.
Qed.

(** * The claims of the specification *)

Section Claims.

Context {D : Type} {ops : DoubleOps D}.
Variable deviates : nat -> D.

(** C1: in [sampleOffsets], after the loop over the adjacency list of an
    entity [u], slot [i] of the row of [u] holds the contributions of the
    entries [ex] of the list whose topic on the other side selects [i]
    ([zM[e] - 1 = i] for [e = ex - 1]), added up in the order of the list;
    the contribution of an entry is [resids[e] - d[(items[e]-1)*KU + (zU[e]-1)]]
    when [KU > 0] and [resids[e]] when [KU <= 0]. *)
Theorem accumulate_contributions
    (items : uptr) (exampsByUser : jptr) (KU KM numUsers : Z) (c d : dptr)
    (zU zM : uptr) (resids : dptr) (st : @state D) (counts : list (option Z)) (u : Z) :
  d <> c -> resids <> c ->
  side_ok st items exampsByUser KU KM numUsers c d zU zM resids = true ->
  0 <= u < numUsers ->
  KM <= Z.of_nat (length counts) ->
  (exists userExamps examps st2 counts2,
     unpackJagged (jget st exampsByUser) numUsers = Some userExamps
     /\ aread userExamps u = Some examps
     /\ entity_stats items KU KM c d zU zM resids userExamps u (st, counts)
        = Some (u * KM, (st2, counts2))
     /\ (forall i, 0 <= i < KM ->
           dload st2 c (u * KM + i)
           = Some (fold_left
                     (fun acc ex => d_add acc (contribution st items KU d zU resids ex))
                     (filter (fun ex => slot_of st zM ex = i) examps) d_zero))
     /\ (forall ex, ex ∈ examps ->
           exists zm r,
             uload st zM (ex - 1) = Some zm
             /\ dload st resids (ex - 1) = Some r
             /\ slot_of st zM ex = zm - 1
             /\ 0 <= zm - 1 < KM
             /\ (KU <= 0 -> contribution st items KU d zU resids ex = r)
             /\ (0 < KU ->
                 exists it zu dv,
                   uload st items (ex - 1) = Some it
                   /\ uload st zU (ex - 1) = Some zu
                   /\ dload st d ((it - 1) * KU + (zu - 1)) = Some dv
                   /\ contribution st items KU d zU resids ex = d_sub r dv))).
Proof.
  intros Hdc Hrc Hok Hu Hcl.
  apply side_ok_inv in Hok as (HKM & Hn & Hmax & Hlen & Hjl & Hex).
  destruct (Hex u Hu) as (examps & Hexu & Hexl & Hexok).
  assert (Hu1 : (u + 1) * KM <= numUsers * KM)
    by (apply Z.mul_le_mono_nonneg_r; lia).
  destruct (entity_stats_spec items KU KM c d zU zM resids Hdc Hrc st st counts
              (take (Z.to_nat numUsers) (jget st exampsByUser)) u examps)
    as (st2 & counts2 & Hstats & _ & _ & _ & Hrow & _);
    try assumption; try lia.
  { apply frame_refl. }
  { rewrite aread_take by lia. exact Hexu. }
  exists (take (Z.to_nat numUsers) (jget st exampsByUser)), examps, st2, counts2.
  split; [| split; [| split; [| split]]].
  - apply unpackJagged_spec. exact Hjl.
  - rewrite aread_take by lia. exact Hexu.
  - exact Hstats.
  - intros i Hi. destruct (Hrow i Hi) as [Hsum _]. exact Hsum.
  - intros ex Hin.
    destruct (example_ok_inv _ _ _ _ _ _ _ _ _ (Hexok ex Hin))
      as (_ & zm & r & Hzm & Hr & Hzmr & Hku).
    destruct (contribution_eq items KU d zU zM resids st ex zm r Hzm Hr)
      as (Hs & Hc0 & Hc1).
    exists zm, r. repeat split; try assumption; try lia.
    intros HKU. destruct (Hku HKU) as (it & zu & dv & Hit & Hzu & _ & Hdv).
    exists it, zu, dv. repeat split; try assumption.
    apply (Hc1 it zu dv); assumption.
Qed.

(** C8: after the loop over the adjacency list of an entity, the counts of
    the [KM] slots add up to the length of the list. *)
Theorem counts_add_up_to_length
    (items : uptr) (exampsByUser : jptr) (KU KM numUsers : Z) (c d : dptr)
    (zU zM : uptr) (resids : dptr) (st : @state D) (counts : list (option Z)) (u : Z) :
  d <> c -> resids <> c ->
  side_ok st items exampsByUser KU KM numUsers c d zU zM resids = true ->
  0 <= u < numUsers ->
  KM <= Z.of_nat (length counts) ->
  exists userExamps examps st2 counts2,
    unpackJagged (jget st exampsByUser) numUsers = Some userExamps
    /\ aread userExamps u = Some examps
    /\ entity_stats items KU KM c d zU zM resids userExamps u (st, counts)
       = Some (u * KM, (st2, counts2))
    /\ counts_total KM counts2 = Z.of_nat (length examps).
Proof.
  intros Hdc Hrc Hok Hu Hcl.
  apply side_ok_inv in Hok as (HKM & Hn & Hmax & Hlen & Hjl & Hex).
  destruct (Hex u Hu) as (examps & Hexu & Hexl & Hexok).
  assert (Hu1 : (u + 1) * KM <= numUsers * KM)
    by (apply Z.mul_le_mono_nonneg_r; lia).
  destruct (entity_stats_spec items KU KM c d zU zM resids Hdc Hrc st st counts
              (take (Z.to_nat numUsers) (jget st exampsByUser)) u examps)
    as (st2 & counts2 & Hstats & _ & _ & _ & Hrow & _);
    try assumption; try lia.
  { apply frame_refl. }
  { rewrite aread_take by lia. exact Hexu. }
  exists (take (Z.to_nat numUsers) (jget st exampsByUser)), examps, st2, counts2.
  split; [| split; [| split]].
  - apply unpackJagged_spec. exact Hjl.
  - rewrite aread_take by lia. exact Hexu.
  - exact Hstats.
  - unfold counts_total.
    rewrite (sum_upto_ext _ _ (topic_count st zM examps)).
    + apply topic_count_total. intros ex Hin.
      destruct (example_ok_inv _ _ _ _ _ _ _ _ _ (Hexok ex Hin))
        as (_ & zm & r & Hzm & _ & Hzmr & _).
      unfold slot_of. rewrite Hzm. simpl. lia.
    + intros i Hi. unfold count_cell.
      destruct (Hrow i) as [_ Hc]; [lia |]. rewrite Hc. reflexivity.
Qed.

(** C2: for every entity [u] and every slot [i] of its row, [sampleOffsets]
    writes [mean + sqrt(variance) * g], where
    [variance = 1/(invSigmaSqd0 + count[i]*invSigmaSqd)],
    [mean = variance * (priorMean*invSigmaSqd0 + sum[i]*invSigmaSqd)],
    [count[i]] and [sum[i]] are the statistics of the adjacency list of [u]
    for slot [i], and [g] is a unit deviate drawn from the generator (draw
    number [u * KM + i] of the call).  The product of doubles is taken to be
    commutative. *)
Theorem posterior_draw_written
    (users items : uptr) (exampsByUser : jptr) (KU KM numUsers : Z)
    (invSigmaSqd invSigmaSqd0 priorMean : D) (c d : dptr) (zU zM : uptr)
    (resids : dptr) (st : @state D) :
  (forall x y : D, d_mul x y = d_mul y x) ->
  d <> c -> resids <> c ->
  side_ok st items exampsByUser KU KM numUsers c d zU zM resids = true ->
  exists st',
    sampleOffsets deviates users items exampsByUser KU KM numUsers
      invSigmaSqd invSigmaSqd0 priorMean c d zU zM resids st = Some st'
    /\ forall u i, 0 <= u < numUsers -> 0 <= i < KM ->
         let examps := examples_of st exampsByUser u in
         let count := topic_count st zM examps i in
         let sum := topic_sum st items KU d zU zM resids examps i in
         let g := deviates (st_rng st + Z.to_nat (u * KM + i))%nat in
         let variance := d_div d_one (d_add invSigmaSqd0 (d_mul (d_of_int count) invSigmaSqd)) in
         let mean := d_mul variance (d_add (d_mul priorMean invSigmaSqd0)
                                           (d_mul sum invSigmaSqd)) in
         dload st' c (u * KM + i) = Some (d_add mean (d_mul (d_sqrt variance) g)).
Proof.
  intros Hcomm Hdc Hrc Hok.
  destruct (sampleOffsets_spec deviates items KU KM c d zU zM resids Hdc Hrc
              users exampsByUser numUsers invSigmaSqd invSigmaSqd0 priorMean st Hok)
    as (st' & Hrun & _ & _ & Hrows & _).
  exists st'. split; [exact Hrun |].
  intros u i Hu Hi. simpl. rewrite (Hrows u i Hu Hi).
  rewrite sampled_offset_posterior_draw by exact Hcomm. reflexivity.
Qed.


(** C7: within one call of [sampleOffsets], the body of the loop for entity
    [u] writes row [u] of [c] only, and leaves [d], [resids], the topic and
    entity-id arrays and the adjacency lists as they were; so does the call
    as a whole. *)
Theorem only_own_row_written
    (users items : uptr) (exampsByUser : jptr) (KU KM numUsers : Z)
    (invSigmaSqd invSigmaSqd0 priorMean : D) (c d : dptr) (zU zM : uptr)
    (resids : dptr) (st : @state D) :
  d <> c -> resids <> c ->
  side_ok st items exampsByUser KU KM numUsers c d zU zM resids = true ->
  (forall u counts, 0 <= u < numUsers -> KM <= Z.of_nat (length counts) ->
     exists userExamps st3 counts3,
       unpackJagged (jget st exampsByUser) numUsers = Some userExamps
       /\ entity_iter deviates items KU KM invSigmaSqd invSigmaSqd0
            (d_mul priorMean invSigmaSqd0) c d zU zM resids userExamps u (st, counts)
          = Some (st3, counts3)
       /\ (forall k, ~ (u * KM <= k < (u + 1) * KM) -> dload st3 c k = dload st c k)
       /\ dget st3 d = dget st d
       /\ dget st3 resids = dget st resids
       /\ (forall p, uget st3 p = uget st p)
       /\ (forall p, jget st3 p = jget st p))
  /\ exists st',
       sampleOffsets deviates users items exampsByUser KU KM numUsers
         invSigmaSqd invSigmaSqd0 priorMean c d zU zM resids st = Some st'
       /\ dget st' d = dget st d
       /\ dget st' resids = dget st resids
       /\ (forall p, uget st' p = uget st p)
       /\ (forall p, jget st' p = jget st p).
Proof.
  intros Hdc Hrc Hok. split.
  - intros u counts Hu Hcl.
    apply side_ok_inv in Hok as (HKM & Hn & Hmax & Hlen & Hjl & Hex).
    destruct (Hex u Hu) as (examps & Hexu & Hexl & Hexok).
    assert (Hu1 : (u + 1) * KM <= numUsers * KM)
      by (apply Z.mul_le_mono_nonneg_r; lia).
    destruct (entity_iter_spec deviates items KU KM c d zU zM resids Hdc Hrc
                invSigmaSqd invSigmaSqd0 (d_mul priorMean invSigmaSqd0) st st counts
                (take (Z.to_nat numUsers) (jget st exampsByUser)) u examps)
      as (st3 & counts3 & Hbody & (Hu3 & Hj3 & Hd3 & _) & _ & _ & _ & Hout);
      try assumption; try lia.
    { apply frame_refl. }
    { rewrite aread_take by lia. exact Hexu. }
    exists (take (Z.to_nat numUsers) (jget st exampsByUser)), st3, counts3.
    split; [| split; [exact Hbody | split; [| repeat split; auto]]].
    + apply unpackJagged_spec. exact Hjl.
    + intros k Hk. apply Hout. lia.
  - destruct (sampleOffsets_spec deviates items KU KM c d zU zM resids Hdc Hrc
                users exampsByUser numUsers invSigmaSqd invSigmaSqd0 priorMean st Hok)
      as (st' & Hrun & (Hu' & Hj' & Hd' & _) & _).
    exists st'. repeat split; auto.
Qed.

(** C10: what [sampleOffsets] writes does not depend on the contents of [c]
    at entry: two calls on states that differ in the contents of [c] only
    write the same [numUsers * KM] offsets, and when [c] has no entry beyond
    those, they end in the same state. *)
Theorem offsets_at_entry_forgotten
    (users items : uptr) (exampsByUser : jptr) (KU KM numUsers : Z)
    (invSigmaSqd invSigmaSqd0 priorMean : D) (c d : dptr) (zU zM : uptr)
    (resids : dptr) (st_a st_b : @state D) :
  d <> c -> resids <> c ->
  side_ok st_a items exampsByUser KU KM numUsers c d zU zM resids = true ->
  frame c st_a st_b ->
  st_rng st_b = st_rng st_a ->
  exists a' b',
    sampleOffsets deviates users items exampsByUser KU KM numUsers
      invSigmaSqd invSigmaSqd0 priorMean c d zU zM resids st_a = Some a'
    /\ sampleOffsets deviates users items exampsByUser KU KM numUsers
         invSigmaSqd invSigmaSqd0 priorMean c d zU zM resids st_b = Some b'
    /\ (forall u i, 0 <= u < numUsers -> 0 <= i < KM ->
          dload a' c (u * KM + i) = dload b' c (u * KM + i))
    /\ (Z.of_nat (length (dget st_a c)) = numUsers * KM -> a' = b').
Proof.
  intros Hdc Hrc Hoka Hfr Hrng.
  assert (Hokb : side_ok st_b items exampsByUser KU KM numUsers c d zU zM resids = true)
    by (rewrite (side_ok_frame c st_a st_b) by exact Hfr; exact Hoka).
  destruct (sampleOffsets_spec deviates items KU KM c d zU zM resids Hdc Hrc
              users exampsByUser numUsers invSigmaSqd invSigmaSqd0 priorMean st_a Hoka)
    as (a' & Hruna & Hfra & Hrnga & Hrowsa & _).
  destruct (sampleOffsets_spec deviates items KU KM c d zU zM resids Hdc Hrc
              users exampsByUser numUsers invSigmaSqd invSigmaSqd0 priorMean st_b Hokb)
    as (b' & Hrunb & Hfrb & Hrngb & Hrowsb & _).
  assert (Hrows : forall u i, 0 <= u < numUsers -> 0 <= i < KM ->
            dload a' c (u * KM + i) = dload b' c (u * KM + i)).
  { intros u i Hu Hi. rewrite (Hrowsa u i Hu Hi), (Hrowsb u i Hu Hi), Hrng.
    assert (Hexs : examples_of st_b exampsByUser u = examples_of st_a exampsByUser u).
    { unfold examples_of. destruct Hfr as (_ & Hj & _). rewrite Hj. reflexivity. }
    rewrite Hexs, (topic_count_frame c st_a st_b) by exact Hfr.
    rewrite (topic_sum_frame c st_a st_b) by assumption. reflexivity. }
  exists a', b'. split; [exact Hruna |]. split; [exact Hrunb |].
  split; [exact Hrows |].
  intros Hlen. apply state_ext.
  - intros p. destruct Hfra as (Hua & _), Hfrb as (Hub & _), Hfr as (Hu & _).
    rewrite Hua, Hub, Hu. reflexivity.
  - intros p. destruct Hfra as (_ & Hja & _), Hfrb as (_ & Hjb & _), Hfr as (_ & Hj & _).
    rewrite Hja, Hjb, Hj. reflexivity.
  - intros p. destruct (decide (p = c)) as [-> | Hp].
    + apply aread_ext.
      * rewrite (frame_dget_length c st_a a' c Hfra), (frame_dget_length c st_b b' c Hfrb).
        symmetry. apply (frame_dget_length c st_a st_b c Hfr).
      * intros k Hk. rewrite (frame_dget_length c st_a a' c Hfra), Hlen in Hk.
        apply side_ok_inv in Hoka as (HKM & _).
        assert (HKMpos : 0 < KM).
        { destruct (decide (KM = 0)) as [HK0 | HK0]; [| lia].
          rewrite HK0, Z.mul_0_r in Hk. lia. }
        pose proof (Z.div_mod k KM ltac:(lia)) as Hdm.
        pose proof (Z.mod_pos_bound k KM HKMpos) as Hmod.
        assert (Hq : 0 <= k / KM < numUsers).
        { split; [apply Z.div_pos; lia |].
          apply Z.div_lt_upper_bound; [exact HKMpos | lia]. }
        specialize (Hrows (k / KM) (k mod KM) Hq Hmod).
        replace (k / KM * KM + k mod KM) with k in Hrows by lia.
        exact Hrows.
    + destruct Hfra as (_ & _ & Hda & _), Hfrb as (_ & _ & Hdb & _), Hfr as (_ & _ & Hd & _).
      rewrite Hda, Hdb, Hd by exact Hp. reflexivity.
  - rewrite Hrnga, Hrngb, Hrng. reflexivity.
Qed.

(** The entry point is the driver of the specification, the flags being
    read from the optional argument. *)
Lemma mexFunction_runOffsetUpdate (m : @model D) (sampParams : option (list bool))
    (st : @state D) :
  flags_ok sampParams = true ->
  mexFunction deviates m sampParams st
  = runOffsetUpdate deviates m (flag_or_default sampParams 0)
      (flag_or_default sampParams 1) st.
Proof.
  intros Hflags. unfold mexFunction, runOffsetUpdate, phase_guard, sampFlag.
  fold (user_phase deviates m st).
  destruct sampParams as [flags |]; simpl in *.
  - destruct flags as [| f0 [| f1 rest]]; try discriminate. simpl.
    destruct (0 <? m_KM m); simpl.
    + destruct f0; simpl.
      * destruct (user_phase deviates m st) as [st1 |]; [| reflexivity]. simpl.
        destruct (0 <? m_KU m); simpl; [| reflexivity]. destruct f1; reflexivity.
      * destruct (0 <? m_KU m); simpl; [| reflexivity]. destruct f1; reflexivity.
    + destruct (0 <? m_KU m); simpl; [| reflexivity]. destruct f1; reflexivity.
  - destruct (0 <? m_KM m); simpl.
    + destruct (user_phase deviates m st) as [st1 |]; [| reflexivity]. simpl.
      destruct (0 <? m_KU m); reflexivity.
    + destruct (0 <? m_KU m); reflexivity.
Qed.

(** C4: the call of [sampleOffsets] for the users (which rewrites [c] with
    prior mean [c0]) is made if and only if [KM > 0] and the flags are absent
    or the first flag is true; the call for the items (which rewrites [d]
    with prior mean [d0]) if and only if [KU > 0] and the flags are absent or
    the second flag is true; without flags both are enabled. *)
Theorem phases_gated (m : @model D) (sampParams : option (list bool)) (st : @state D) :
  flags_ok sampParams = true ->
  let goUser := (0 <? m_KM m) && flag_or_default sampParams 0 in
  let goItem := (0 <? m_KU m) && flag_or_default sampParams 1 in
  mexFunction deviates m sampParams st
  = (st1 ← (if goUser then user_phase deviates m st else Some st);
     if goItem then item_phase deviates m st1 else Some st1)
  /\ (goUser = true <->
       0 < m_KM m
       /\ (sampParams = None
           \/ exists flags, sampParams = Some flags /\ flags !! 0%nat = Some true))
  /\ (goItem = true <->
       0 < m_KU m
       /\ (sampParams = None
           \/ exists flags, sampParams = Some flags /\ flags !! 1%nat = Some true))
  /\ (sampParams = None -> goUser = (0 <? m_KM m) /\ goItem = (0 <? m_KU m)).
Proof.
  intros Hflags goUser goItem. split; [| split; [| split]].
  - rewrite mexFunction_runOffsetUpdate by exact Hflags. reflexivity.
  - unfold goUser. rewrite andb_true_iff, Z.ltb_lt.
    destruct sampParams as [flags |]; simpl in *.
    + destruct flags as [| f0 [| f1 rest]]; try discriminate. simpl. split.
      * intros [HK Hf]. split; [exact HK |]. right. eexists. split; [reflexivity |].
        simpl. rewrite Hf. reflexivity.
      * intros [HK [Hn | (fl & Hfl & Hf)]]; [discriminate |].
        injection Hfl as <-. simpl in Hf. injection Hf as ->. split; [exact HK | reflexivity].
    + split; [intros [HK _]; split; [exact HK | left; reflexivity]
             | intros [HK _]; split; [exact HK | reflexivity]].
  - unfold goItem. rewrite andb_true_iff, Z.ltb_lt.
    destruct sampParams as [flags |]; simpl in *.
    + destruct flags as [| f0 [| f1 rest]]; try discriminate. simpl. split.
      * intros [HK Hf]. split; [exact HK |]. right. eexists. split; [reflexivity |].
        simpl. rewrite Hf. reflexivity.
      * intros [HK [Hn | (fl & Hfl & Hf)]]; [discriminate |].
        injection Hfl as <-. simpl in Hf. injection Hf as ->. split; [exact HK | reflexivity].
    + split; [intros [HK _]; split; [exact HK | left; reflexivity]
             | intros [HK _]; split; [exact HK | reflexivity]].
  - intros ->. unfold goUser, goItem. simpl. rewrite !andb_true_r. split; reflexivity.
Qed.

(** C6: when the call for the users is disabled ([KM <= 0] or the first flag
    false), [c] is after the entry point what it was before; when the call
    for the items is disabled, so is [d]. *)
Theorem disabled_side_untouched (m : @model D) (sampParams : option (list bool))
    (st : @state D) :
  flags_ok sampParams = true ->
  let goUser := (0 <? m_KM m) && flag_or_default sampParams 0 in
  let goItem := (0 <? m_KU m) && flag_or_default sampParams 1 in
  (goUser = false ->
   (goItem = true -> item_ok m st = true) ->
   exists st', mexFunction deviates m sampParams st = Some st' /\ st_c st' = st_c st)
  /\ (goItem = false ->
      (goUser = true -> user_ok m st = true) ->
      exists st', mexFunction deviates m sampParams st = Some st' /\ st_d st' = st_d st).
Proof.
  intros Hflags goUser goItem.
  rewrite mexFunction_runOffsetUpdate by exact Hflags.
  unfold runOffsetUpdate. fold goUser goItem. split.
  - intros HgoU Hok. rewrite HgoU. cbn [mbind option_bind].
    destruct goItem.
    + destruct (sampleOffsets_spec deviates Pusers (m_KM m) (m_KU m) Pd Pc PzM PzU Presids
                  ltac:(discriminate) ltac:(discriminate) Pitems PexampsByItem (m_numItems m)
                  (d_div d_one (m_sigmaSqd m)) (d_div d_one (m_sigmaSqd0 m)) (m_d0 m) st
                  (Hok eq_refl))
        as (st' & Hrun & (_ & _ & Hd & _) & _).
      exists st'. split; [exact Hrun |]. apply (Hd Pc). discriminate.
    + exists st. split; reflexivity.
  - intros HgoI Hok. rewrite HgoI.
    destruct goUser.
    + destruct (sampleOffsets_spec deviates Pitems (m_KU m) (m_KM m) Pc Pd PzU PzM Presids
                  ltac:(discriminate) ltac:(discriminate) Pusers PexampsByUser (m_numUsers m)
                  (d_div d_one (m_sigmaSqd m)) (d_div d_one (m_sigmaSqd0 m)) (m_c0 m) st
                  (Hok eq_refl))
        as (st' & Hrun & (_ & _ & Hd & _) & _).
      exists st'. unfold user_phase. rewrite Hrun. cbn [mbind option_bind].
      split; [reflexivity |]. apply (Hd Pd). discriminate.
    + exists st. split; reflexivity.
Qed.

(** C5: when both calls are enabled, the call for the users has returned
    before the call for the items starts, and the sums of the call for the
    items are taken over the [c] that the call for the users has just
    written: the contribution of an entry [ex] is
    [resids[e] - c1[(users[e]-1)*KM + (zM[e]-1)]] for the array [c1] of the
    state [st1] the first call returns. *)
Theorem item_side_sees_fresh_user_offsets (m : @model D)
    (sampParams : option (list bool)) (st : @state D) :
  flags_ok sampParams = true ->
  (0 <? m_KM m) && flag_or_default sampParams 0 = true ->
  (0 <? m_KU m) && flag_or_default sampParams 1 = true ->
  user_ok m st = true ->
  item_ok m st = true ->
  let invSigmaSqd := d_div d_one (m_sigmaSqd m) in
  let invSigmaSqd0 := d_div d_one (m_sigmaSqd0 m) in
  exists st1 st2,
    user_phase deviates m st = Some st1
    /\ item_phase deviates m st1 = Some st2
    /\ mexFunction deviates m sampParams st = Some st2
    /\ st_rng st1 = (st_rng st + Z.to_nat (m_numUsers m * m_KM m))%nat
    /\ st_c st2 = st_c st1
    /\ (forall u k, 0 <= u < m_numUsers m -> 0 <= k < m_KM m ->
          let examps := examples_of st PexampsByUser u in
          dload st1 Pc (u * m_KM m + k)
          = Some (sampled_offset invSigmaSqd invSigmaSqd0 (d_mul (m_c0 m) invSigmaSqd0)
                    (topic_count st PzM examps k)
                    (topic_sum st Pitems (m_KU m) Pd PzU PzM Presids examps k)
                    (deviates (st_rng st + Z.to_nat (u * m_KM m + k))%nat)))
    /\ (forall p i, 0 <= p < m_numItems m -> 0 <= i < m_KU m ->
          let examps := examples_of st PexampsByItem p in
          dload st2 Pd (p * m_KU m + i)
          = Some (sampled_offset invSigmaSqd invSigmaSqd0 (d_mul (m_d0 m) invSigmaSqd0)
                    (topic_count st PzU examps i)
                    (topic_sum st1 Pusers (m_KM m) Pc PzM PzU Presids examps i)
                    (deviates (st_rng st1 + Z.to_nat (p * m_KU m + i))%nat)))
    /\ (forall p ex, 0 <= p < m_numItems m -> ex ∈ examples_of st PexampsByItem p ->
          exists r us zm c1,
            dload st Presids (ex - 1) = Some r
            /\ uload st Pusers (ex - 1) = Some us
            /\ uload st PzM (ex - 1) = Some zm
            /\ dload st1 Pc ((us - 1) * m_KM m + (zm - 1)) = Some c1
            /\ contribution st1 Pusers (m_KM m) Pc PzM Presids ex = d_sub r c1).
Proof.
  intros Hflags HgoU HgoI HokU HokI invSigmaSqd invSigmaSqd0.
  assert (HKM : 0 < m_KM m).
  { apply andb_true_iff in HgoU as [HK _]. apply Z.ltb_lt. exact HK. }
  destruct (sampleOffsets_spec deviates Pitems (m_KU m) (m_KM m) Pc Pd PzU PzM Presids
              ltac:(discriminate) ltac:(discriminate) Pusers PexampsByUser (m_numUsers m)
              invSigmaSqd invSigmaSqd0 (m_c0 m) st HokU)
    as (st1 & Hrun1 & Hfr1 & Hrng1 & Hrows1 & _).
  assert (HokI1 : item_ok m st1 = true).
  { unfold item_ok. rewrite (side_ok_frame Pc st st1) by exact Hfr1. exact HokI. }
  destruct (sampleOffsets_spec deviates Pusers (m_KM m) (m_KU m) Pd Pc PzM PzU Presids
              ltac:(discriminate) ltac:(discriminate) Pitems PexampsByItem (m_numItems m)
              invSigmaSqd invSigmaSqd0 (m_d0 m) st1 HokI1)
    as (st2 & Hrun2 & Hfr2 & Hrng2 & Hrows2 & _).
  assert (Hexs : forall p, examples_of st1 PexampsByItem p = examples_of st PexampsByItem p).
  { intros p. unfold examples_of. destruct Hfr1 as (_ & Hj & _). rewrite Hj. reflexivity. }
  exists st1, st2.
  split; [exact Hrun1 |]. split; [exact Hrun2 |]. split.
  { rewrite mexFunction_runOffsetUpdate by exact Hflags.
    unfold runOffsetUpdate. rewrite HgoU, HgoI.
    unfold user_phase. fold invSigmaSqd invSigmaSqd0. rewrite Hrun1.
    cbn [mbind option_bind]. exact Hrun2. }
  split; [exact Hrng1 |]. split.
  { destruct Hfr2 as (_ & _ & Hd & _). apply (Hd Pc). discriminate. }
  split; [exact Hrows1 |]. split.
  - intros p i Hp Hi. simpl. rewrite (Hrows2 p i Hp Hi), Hexs.
    rewrite (topic_count_frame Pc st st1) by exact Hfr1. reflexivity.
  - intros p ex Hp Hin.
    apply side_ok_inv in HokI1 as (_ & _ & _ & _ & _ & Hex).
    destruct (Hex p Hp) as (examps & Hexp & _ & Hexok).
    assert (Hin1 : ex ∈ examps).
    { rewrite <- Hexs in Hin. unfold examples_of in Hin. rewrite Hexp in Hin. exact Hin. }
    destruct (example_ok_inv _ _ _ _ _ _ _ _ _ (Hexok ex Hin1))
      as (_ & zu & r & _ & Hr & _ & Hku).
    destruct (Hku HKM) as (us & zm & c1 & Hus & Hzm & _ & Hc1).
    exists r, us, zm, c1.
    rewrite <- (frame_dload Pc st st1 Presids (ex - 1) Hfr1) by discriminate.
    rewrite <- !(frame_uload Pc st st1 _ _ Hfr1).
    repeat split; try assumption.
    unfold contribution. rewrite Hr, Hus, Hzm. simpl. rewrite Hc1.
    destruct (Z.ltb_spec 0 (m_KM m)); [reflexivity | lia].
Qed.

End Claims.


(** C9: on the small data set, in binary64 arithmetic and with the
    generator that yields 1/2 at every draw, the call for the users followed
    by the call for the items and the two calls in the other order end with
    different arrays [d].  Every draw being the same, the difference comes
    from the offsets [c] the call for the items subtracts: those the call
    for the users has written in the one order, those at entry in the other.
    The first entry of [d] is positive after the one and negative after the
    other. *)
Theorem phases_do_not_commute :
  exists (ui iu : @state PrimFloat.float) (d_ui d_iu : PrimFloat.float),
    (st1 ← user_phase (constant_deviates 0.5%float) fixture_model fixture_state;
     item_phase (constant_deviates 0.5%float) fixture_model st1) = Some ui
    /\ (st1 ← item_phase (constant_deviates 0.5%float) fixture_model fixture_state;
        user_phase (constant_deviates 0.5%float) fixture_model st1) = Some iu
    /\ mexFunction (constant_deviates 0.5%float) fixture_model (Some [true; true])
         fixture_state = Some ui
    /\ (st1 ← mexFunction (constant_deviates 0.5%float) fixture_model
               (Some [false; true]) fixture_state;
        mexFunction (constant_deviates 0.5%float) fixture_model
          (Some [true; false]) st1) = Some iu
    /\ dload ui Pd 0 = Some d_ui
    /\ dload iu Pd 0 = Some d_iu
    /\ PrimFloat.ltb 0 d_ui = true
    /\ PrimFloat.ltb d_iu 0 = true
    /\ st_d ui <> st_d iu.
Proof.
  eexists. eexists. eexists. eexists.
  split; [vm_compute; reflexivity |].
  split; [vm_compute; reflexivity |].
  split; [vm_compute; reflexivity |].
  split; [vm_compute; reflexivity |].
  split; [vm_compute; reflexivity |].
  split; [vm_compute; reflexivity |].
  split; [vm_compute; reflexivity |].
  split; [vm_compute; reflexivity |].
  intros Heq.
  apply (f_equal (fun l => match l with
                           | x :: _ => PrimFloat.ltb x PrimFloat.zero
                           | [] => false
                           end)) in Heq.
  vm_compute in Heq. discriminate.
Qed.

(** * The claims on the small data set, over the real numbers *)

Lemma accumulate_contributions_witness :
  (Pd <> Pc /\ Presids <> Pc
   /\ side_ok (@fixture_state R _) Pitems PexampsByUser 2 2 2 Pc Pd PzU PzM Presids = true
   /\ 0 <= 0 < 2
   /\ 2 <= Z.of_nat (length (replicate 4 (@None Z))))
  /\ exists userExamps examps st2 counts2,
       unpackJagged (jget (@fixture_state R _) PexampsByUser) 2 = Some userExamps
       /\ aread userExamps 0 = Some examps
       /\ entity_stats Pitems 2 2 Pc Pd PzU PzM Presids userExamps 0
            (@fixture_state R _, replicate 4 None)
          = Some (0 * 2, (st2, counts2)).
Proof.
  assert (h1 : Pd <> Pc) by discriminate.
  assert (h2 : Presids <> Pc) by discriminate.
  assert (h3 : side_ok (@fixture_state R _) Pitems PexampsByUser 2 2 2 Pc Pd PzU PzM Presids
               = true) by (vm_compute; reflexivity).
  assert (h4 : 0 <= 0 < 2) by lia.
  assert (h5 : 2 <= Z.of_nat (length (replicate 4 (@None Z)))) by (vm_compute; discriminate).
  split; [repeat split; assumption || lia |].
  destruct (accumulate_contributions Pitems PexampsByUser 2 2 2 Pc Pd PzU PzM Presids
              (@fixture_state R _) (replicate 4 None) 0 h1 h2 h3 h4 h5)
    as (userExamps & examps & st2 & counts2 & Hu & He & Hs & _).
  exists userExamps, examps, st2, counts2. repeat split; assumption.
Defined.

Lemma counts_add_up_to_length_witness :
  (Pd <> Pc /\ Presids <> Pc
   /\ side_ok (@fixture_state R _) Pitems PexampsByUser 2 2 2 Pc Pd PzU PzM Presids = true
   /\ 0 <= 1 < 2
   /\ 2 <= Z.of_nat (length (replicate 4 (@None Z))))
  /\ exists userExamps examps st2 counts2,
       unpackJagged (jget (@fixture_state R _) PexampsByUser) 2 = Some userExamps
       /\ aread userExamps 1 = Some examps
       /\ entity_stats Pitems 2 2 Pc Pd PzU PzM Presids userExamps 1
            (@fixture_state R _, replicate 4 None)
          = Some (1 * 2, (st2, counts2))
       /\ counts_total 2 counts2 = Z.of_nat (length examps).
Proof.
  assert (h1 : Pd <> Pc) by discriminate.
  assert (h2 : Presids <> Pc) by discriminate.
  assert (h3 : side_ok (@fixture_state R _) Pitems PexampsByUser 2 2 2 Pc Pd PzU PzM Presids
               = true) by (vm_compute; reflexivity).
  assert (h4 : 0 <= 1 < 2) by lia.
  assert (h5 : 2 <= Z.of_nat (length (replicate 4 (@None Z)))) by (vm_compute; discriminate).
  split; [repeat split; assumption || lia |].
  exact (counts_add_up_to_length Pitems PexampsByUser 2 2 2 Pc Pd PzU PzM Presids
           (@fixture_state R _) (replicate 4 None) 1 h1 h2 h3 h4 h5).
Defined.

Lemma posterior_draw_written_witness :
  ((forall x y : R, d_mul x y = d_mul y x)
   /\ Pd <> Pc /\ Presids <> Pc
   /\ side_ok (@fixture_state R _) Pitems PexampsByUser 2 2 2 Pc Pd PzU PzM Presids = true)
  /\ exists st',
       sampleOffsets (constant_deviates 0%R) Pusers Pitems PexampsByUser 2 2 2
         1%R 1%R 1%R Pc Pd PzU PzM Presids fixture_state = Some st'.
Proof.
  assert (h0 : forall x y : R, d_mul x y = d_mul y x) by (intros x y; apply Rmult_comm).
  assert (h1 : Pd <> Pc) by discriminate.
  assert (h2 : Presids <> Pc) by discriminate.
  assert (h3 : side_ok (@fixture_state R _) Pitems PexampsByUser 2 2 2 Pc Pd PzU PzM Presids
               = true) by (vm_compute; reflexivity).
  split; [repeat split; assumption |].
  destruct (posterior_draw_written (constant_deviates 0%R) Pusers Pitems PexampsByUser
              2 2 2 1%R 1%R 1%R Pc Pd PzU PzM Presids fixture_state h0 h1 h2 h3)
    as (st' & Hrun & _).
  exists st'. exact Hrun.
Defined.


Lemma only_own_row_written_witness :
  (Pd <> Pc /\ Presids <> Pc
   /\ side_ok (@fixture_state R _) Pitems PexampsByUser 2 2 2 Pc Pd PzU PzM Presids = true)
  /\ exists st',
       sampleOffsets (constant_deviates 0%R) Pusers Pitems PexampsByUser 2 2 2
         1%R 1%R 1%R Pc Pd PzU PzM Presids fixture_state = Some st'
       /\ st_d st' = st_d fixture_state
       /\ st_resids st' = st_resids fixture_state.
Proof.
  assert (h1 : Pd <> Pc) by discriminate.
  assert (h2 : Presids <> Pc) by discriminate.
  assert (h3 : side_ok (@fixture_state R _) Pitems PexampsByUser 2 2 2 Pc Pd PzU PzM Presids
               = true) by (vm_compute; reflexivity).
  split; [repeat split; assumption |].
  destruct (only_own_row_written (constant_deviates 0%R) Pusers Pitems PexampsByUser
              2 2 2 1%R 1%R 1%R Pc Pd PzU PzM Presids fixture_state h1 h2 h3)
    as (_ & st' & Hrun & Hd & Hr & _).
  exists st'. repeat split; assumption.
Defined.

Lemma offsets_at_entry_forgotten_witness :
  (Pd <> Pc /\ Presids <> Pc
   /\ side_ok (@fixture_state R _) Pitems PexampsByUser 2 2 2 Pc Pd PzU PzM Presids = true
   /\ frame Pc (@fixture_state R _) fixture_state_alt
   /\ st_rng (@fixture_state_alt R _) = st_rng (@fixture_state R _)
   /\ Z.of_nat (length (dget (@fixture_state R _) Pc)) = 2 * 2)
  /\ exists st',
       sampleOffsets (constant_deviates 0%R) Pusers Pitems PexampsByUser 2 2 2
         1%R 1%R 1%R Pc Pd PzU PzM Presids fixture_state = Some st'
       /\ sampleOffsets (constant_deviates 0%R) Pusers Pitems PexampsByUser 2 2 2
            1%R 1%R 1%R Pc Pd PzU PzM Presids fixture_state_alt = Some st'.
Proof.
  assert (h1 : Pd <> Pc) by discriminate.
  assert (h2 : Presids <> Pc) by discriminate.
  assert (h3 : side_ok (@fixture_state R _) Pitems PexampsByUser 2 2 2 Pc Pd PzU PzM Presids
               = true) by (vm_compute; reflexivity).
  assert (h4 : frame Pc (@fixture_state R _) fixture_state_alt).
  { repeat split; intros p; destruct p; try reflexivity; intros Hp; contradiction. }
  assert (h5 : st_rng (@fixture_state_alt R _) = st_rng (@fixture_state R _)) by reflexivity.
  assert (h6 : Z.of_nat (length (dget (@fixture_state R _) Pc)) = 2 * 2) by reflexivity.
  split; [repeat split; assumption || apply h4 |].
  destruct (offsets_at_entry_forgotten (constant_deviates 0%R) Pusers Pitems PexampsByUser
              2 2 2 1%R 1%R 1%R Pc Pd PzU PzM Presids fixture_state fixture_state_alt
              h1 h2 h3 h4 h5)
    as (a' & b' & Hruna & Hrunb & _ & Hsame).
  exists a'. split; [exact Hruna |]. rewrite (Hsame h6). exact Hrunb.
Defined.

Lemma phases_gated_witness :
  flags_ok (Some [true; false]) = true
  /\ (0 <? m_KM (@fixture_model R _)) && flag_or_default (Some [true; false]) 0 = true.
Proof.
  assert (h1 : flags_ok (Some [true; false]) = true) by reflexivity.
  split; [exact h1 |].
  destruct (phases_gated (constant_deviates 0%R) fixture_model (Some [true; false])
              fixture_state h1) as (_ & HgoUser & _).
  apply HgoUser. split; [reflexivity |].
  right. exists [true; false]. split; reflexivity.
Defined.

Lemma disabled_side_untouched_witness :
  (flags_ok (Some [false; true]) = true
   /\ (0 <? m_KM (@fixture_model R _)) && flag_or_default (Some [false; true]) 0 = false
   /\ item_ok (@fixture_model R _) fixture_state = true)
  /\ exists st',
       mexFunction (constant_deviates 0%R) fixture_model (Some [false; true]) fixture_state
       = Some st'
       /\ st_c st' = st_c fixture_state.
Proof.
  assert (h1 : flags_ok (Some [false; true]) = true) by reflexivity.
  assert (h2 : (0 <? m_KM (@fixture_model R _)) && flag_or_default (Some [false; true]) 0
               = false) by reflexivity.
  assert (h3 : item_ok (@fixture_model R _) fixture_state = true)
    by (vm_compute; reflexivity).
  split; [repeat split; assumption |].
  exact (proj1 (disabled_side_untouched (constant_deviates 0%R) fixture_model
                  (Some [false; true]) fixture_state h1) h2 (fun _ => h3)).
Defined.

Lemma item_side_sees_fresh_user_offsets_witness :
  (flags_ok None = true
   /\ (0 <? m_KM (@fixture_model R _)) && flag_or_default None 0 = true
   /\ (0 <? m_KU (@fixture_model R _)) && flag_or_default None 1 = true
   /\ user_ok (@fixture_model R _) fixture_state = true
   /\ item_ok (@fixture_model R _) fixture_state = true)
  /\ exists st1 st2,
       user_phase (constant_deviates 0%R) fixture_model fixture_state = Some st1
       /\ item_phase (constant_deviates 0%R) fixture_model st1 = Some st2
       /\ mexFunction (constant_deviates 0%R) fixture_model None fixture_state = Some st2.
Proof.
  assert (h1 : flags_ok None = true) by reflexivity.
  assert (h2 : (0 <? m_KM (@fixture_model R _)) && flag_or_default None 0 = true)
    by reflexivity.
  assert (h3 : (0 <? m_KU (@fixture_model R _)) && flag_or_default None 1 = true)
    by reflexivity.
  assert (h4 : user_ok (@fixture_model R _) fixture_state = true)
    by (vm_compute; reflexivity).
  assert (h5 : item_ok (@fixture_model R _) fixture_state = true)
    by (vm_compute; reflexivity).
  split; [repeat split; assumption |].
  destruct (item_side_sees_fresh_user_offsets (constant_deviates 0%R) fixture_model None
              fixture_state h1 h2 h3 h4 h5)
    as (st1 & st2 & Hu & Hi & Hm & _).
  exists st1, st2. repeat split; assumption.
Defined.

(** * Further properties of the code *)

Section Footprint.

Context {D : Type} {ops : DoubleOps D}.
Variable deviates : nat -> D.

(** X1: a call of [sampleOffsets] on usable inputs draws exactly
    [numUsers * KM] deviates, keeps the size of [c], and leaves every cell
    of [c] from [numUsers * KM] on as it was. *)
Theorem call_footprint
    (users items : uptr) (exampsByUser : jptr) (KU KM numUsers : Z)
    (invSigmaSqd invSigmaSqd0 priorMean : D) (c d : dptr) (zU zM : uptr)
    (resids : dptr) (st : @state D) :
  d <> c -> resids <> c ->
  side_ok st items exampsByUser KU KM numUsers c d zU zM resids = true ->
  exists st',
    sampleOffsets deviates users items exampsByUser KU KM numUsers
      invSigmaSqd invSigmaSqd0 priorMean c d zU zM resids st = Some st'
    /\ st_rng st' = (st_rng st + Z.to_nat (numUsers * KM))%nat
    /\ length (dget st' c) = length (dget st c)
    /\ forall k, numUsers * KM <= k -> dload st' c k = dload st c k.
Proof.
  intros Hdc Hrc Hok.
  destruct (sampleOffsets_spec deviates items KU KM c d zU zM resids Hdc Hrc
              users exampsByUser numUsers invSigmaSqd invSigmaSqd0 priorMean st Hok)
    as (st' & Hrun & Hfr & Hrng & _ & Hout).
  exists st'. split; [exact Hrun |]. split; [exact Hrng |].
  split; [apply (frame_dget_length c st st' c Hfr) |].
  intros k Hk. apply Hout. lia.
Qed.

(** X3: a call with no entity or no topic ([numUsers * KM = 0]) on usable
    inputs returns the state it was given: nothing is written and nothing
    is drawn. *)
Theorem empty_call_is_identity
    (users items : uptr) (exampsByUser : jptr) (KU KM numUsers : Z)
    (invSigmaSqd invSigmaSqd0 priorMean : D) (c d : dptr) (zU zM : uptr)
    (resids : dptr) (st : @state D) :
  d <> c -> resids <> c ->
  side_ok st items exampsByUser KU KM numUsers c d zU zM resids = true ->
  numUsers * KM = 0 ->
  sampleOffsets deviates users items exampsByUser KU KM numUsers
    invSigmaSqd invSigmaSqd0 priorMean c d zU zM resids st = Some st.
Proof.
  intros Hdc Hrc Hok Hzero.
  destruct (sampleOffsets_spec deviates items KU KM c d zU zM resids Hdc Hrc
              users exampsByUser numUsers invSigmaSqd invSigmaSqd0 priorMean st Hok)
    as (st' & Hrun & Hfr & Hrng & _ & Hout).
  rewrite Hrun. f_equal. apply state_ext.
  - intros r. destruct Hfr as (Hu & _). apply Hu.
  - intros r. destruct Hfr as (_ & Hj & _). apply Hj.
  - intros p. destruct (decide (p = c)) as [-> | Hp].
    + apply aread_ext.
      * apply (frame_dget_length c st st' c Hfr).
      * intros k Hk. apply Hout. lia.
    + destruct Hfr as (_ & _ & Hd & _). apply Hd. exact Hp.
  - rewrite Hrng, Hzero. simpl. lia.
Qed.

(** X5: the body of the loop over the entities does not depend on what the
    scratch counts hold at entry: line 95 resets them, so the counts an
    earlier entity left behind never reach the offsets of the next one. *)
Theorem scratch_counts_forgotten
    (items : uptr) (exampsByUser : jptr) (KU KM numUsers : Z)
    (invSigmaSqd invSigmaSqd0 ratio : D) (c d : dptr) (zU zM : uptr)
    (resids : dptr) (st : @state D) (counts_a counts_b : list (option Z)) (u : Z) :
  d <> c -> resids <> c ->
  side_ok st items exampsByUser KU KM numUsers c d zU zM resids = true ->
  0 <= u < numUsers ->
  KM <= Z.of_nat (length counts_a) ->
  KM <= Z.of_nat (length counts_b) ->
  exists userExamps st3 counts_a' counts_b',
    unpackJagged (jget st exampsByUser) numUsers = Some userExamps
    /\ entity_iter deviates items KU KM invSigmaSqd invSigmaSqd0 ratio c d zU zM
         resids userExamps u (st, counts_a) = Some (st3, counts_a')
    /\ entity_iter deviates items KU KM invSigmaSqd invSigmaSqd0 ratio c d zU zM
         resids userExamps u (st, counts_b) = Some (st3, counts_b').
Proof.
  intros Hdc Hrc Hok Hu Hla Hlb.
  apply side_ok_inv in Hok as (HKM & Hn & Hmax & Hlen & Hjl & Hex).
  destruct (Hex u Hu) as (examps & Hexu & Hexl & Hexok).
  assert (Hu1 : (u + 1) * KM <= numUsers * KM)
    by (apply Z.mul_le_mono_nonneg_r; lia).
  assert (Hread : aread (take (Z.to_nat numUsers) (jget st exampsByUser)) u = Some examps)
    by (rewrite aread_take by lia; exact Hexu).
  destruct (entity_iter_spec deviates items KU KM c d zU zM resids Hdc Hrc
              invSigmaSqd invSigmaSqd0 ratio st st counts_a
              (take (Z.to_nat numUsers) (jget st exampsByUser)) u examps)
    as (sa & ca & Hruna & Hfra & Hrnga & _ & Hrowa & Houta);
    try assumption; try lia; try apply frame_refl.
  destruct (entity_iter_spec deviates items KU KM c d zU zM resids Hdc Hrc
              invSigmaSqd invSigmaSqd0 ratio st st counts_b
              (take (Z.to_nat numUsers) (jget st exampsByUser)) u examps)
    as (sb & cb & Hrunb & Hfrb & Hrngb & _ & Hrowb & Houtb);
    try assumption; try lia; try apply frame_refl.
  assert (Hsame : sb = sa).
  { apply state_ext.
    - intros r. destruct Hfra as (Ha & _), Hfrb as (Hb & _). rewrite Ha, Hb. reflexivity.
    - intros r. destruct Hfra as (_ & Ha & _), Hfrb as (_ & Hb & _).
      rewrite Ha, Hb. reflexivity.
    - intros p. destruct (decide (p = c)) as [-> | Hp].
      + apply aread_ext.
        * rewrite (frame_dget_length c st sa c Hfra), (frame_dget_length c st sb c Hfrb).
          reflexivity.
        * intros k _. fold (dload sb c k). fold (dload sa c k).
          destruct (decide (u * KM <= k < u * KM + KM)) as [Hin | Hnot].
          -- replace k with (u * KM + (k - u * KM)) by lia.
             rewrite (Hrowa (k - u * KM)), (Hrowb (k - u * KM)) by lia. reflexivity.
          -- rewrite (Houta k Hnot), (Houtb k Hnot). reflexivity.
      + destruct Hfra as (_ & _ & Ha & _), Hfrb as (_ & _ & Hb & _).
        rewrite Ha, Hb by exact Hp. reflexivity.
    - congruence. }
  exists (take (Z.to_nat numUsers) (jget st exampsByUser)), sa, ca, cb.
  split; [apply unpackJagged_spec; exact Hjl |].
  split; [exact Hruna |]. rewrite <- Hsame. exact Hrunb.
Qed.

(** Two bodies in a row, for different entities [u] then [v]: each row is
    rewritten from its own statistics, [u] with the first [KM] deviates and
    [v] with the next [KM]. *)
Lemma two_bodies_spec
    (items : uptr) (exampsByUser : jptr) (KU KM numUsers : Z)
    (invSigmaSqd invSigmaSqd0 ratio : D) (c d : dptr) (zU zM : uptr)
    (resids : dptr) (st : @state D) (counts : list (option Z)) (u v : Z) :
  d <> c -> resids <> c ->
  side_ok st items exampsByUser KU KM numUsers c d zU zM resids = true ->
  0 <= u < numUsers -> 0 <= v < numUsers -> u <> v ->
  KM <= Z.of_nat (length counts) ->
  let userExamps := take (Z.to_nat numUsers) (jget st exampsByUser) in
  let body := entity_iter deviates items KU KM invSigmaSqd invSigmaSqd0 ratio c d
                zU zM resids userExamps in
  let value w i g :=
    sampled_offset invSigmaSqd invSigmaSqd0 ratio
      (topic_count st zM (examples_of st exampsByUser w) i)
      (topic_sum st items KU d zU zM resids (examples_of st exampsByUser w) i) g in
  exists s2 counts2,
    (s1 ← body u (st, counts); body v s1) = Some (s2, counts2)
    /\ frame c st s2
    /\ st_rng s2 = (st_rng st + Z.to_nat KM + Z.to_nat KM)%nat
    /\ (forall i, 0 <= i < KM ->
          dload s2 c (u * KM + i)
          = Some (value u i (deviates (st_rng st + Z.to_nat i)%nat))
          /\ dload s2 c (v * KM + i)
             = Some (value v i (deviates (st_rng st + Z.to_nat KM + Z.to_nat i)%nat)))
    /\ (forall k, ~ (u * KM <= k < u * KM + KM) -> ~ (v * KM <= k < v * KM + KM) ->
          dload s2 c k = dload st c k).
Proof.
  intros Hdc Hrc Hok Hu Hv Huv Hcl userExamps body value.
  apply side_ok_inv in Hok as (HKM & Hn & Hmax & Hlen & Hjl & Hex).
  destruct (Hex u Hu) as (eu & Hexu & Hexlu & Hexoku).
  destruct (Hex v Hv) as (ev & Hexv & Hexlv & Hexokv).
  assert (Hu1 : (u + 1) * KM <= numUsers * KM) by (apply Z.mul_le_mono_nonneg_r; lia).
  assert (Hv1 : (v + 1) * KM <= numUsers * KM) by (apply Z.mul_le_mono_nonneg_r; lia).
  assert (Hsep : (u + 1) * KM <= v * KM \/ (v + 1) * KM <= u * KM).
  { destruct (Z.lt_ge_cases u v); [left | right]; apply Z.mul_le_mono_nonneg_r; lia. }
  assert (Heu : examples_of st exampsByUser u = eu)
    by (unfold examples_of; rewrite Hexu; reflexivity).
  assert (Hev : examples_of st exampsByUser v = ev)
    by (unfold examples_of; rewrite Hexv; reflexivity).
  destruct (entity_iter_spec deviates items KU KM c d zU zM resids Hdc Hrc
              invSigmaSqd invSigmaSqd0 ratio st st counts userExamps u eu)
    as (s1 & c1 & Hrun1 & Hfr1 & Hrng1 & Hlen1 & Hrow1 & Hout1);
    try assumption; try lia; try apply frame_refl.
  { unfold userExamps. rewrite aread_take by lia. exact Hexu. }
  destruct (entity_iter_spec deviates items KU KM c d zU zM resids Hdc Hrc
              invSigmaSqd invSigmaSqd0 ratio st s1 c1 userExamps v ev)
    as (s2 & c2 & Hrun2 & Hfr2 & Hrng2 & Hlen2 & Hrow2 & Hout2);
    try assumption; try lia.
  { rewrite (frame_dget_length c st s1 c Hfr1). lia. }
  { unfold userExamps. rewrite aread_take by lia. exact Hexv. }
  exists s2, c2. split; [| split; [| split; [| split]]].
  - fold body in Hrun1, Hrun2. rewrite Hrun1. cbn [mbind option_bind]. exact Hrun2.
  - eapply frame_trans; eassumption.
  - rewrite Hrng2, Hrng1. reflexivity.
  - intros i Hi. unfold value. rewrite Heu, Hev. split.
    + rewrite Hout2 by lia. apply Hrow1. exact Hi.
    + rewrite (Hrow2 i Hi), Hrng1. reflexivity.
  - intros k Hku Hkv. rewrite (Hout2 k Hkv). apply Hout1. exact Hku.
Qed.

(** X6: the bodies of the loop over the entities commute.  For two
    entities [u <> v], running the body for [u] then for [v], or for [v]
    then for [u], returns in both cases; the two results agree on the state
    of the generator and on [c] outside the rows of [u] and [v].  When the
    generator yields the same deviates in both blocks of [KM] draws, the two
    final states are equal. *)
Theorem entity_bodies_commute
    (items : uptr) (exampsByUser : jptr) (KU KM numUsers : Z)
    (invSigmaSqd invSigmaSqd0 ratio : D) (c d : dptr) (zU zM : uptr)
    (resids : dptr) (st : @state D) (counts : list (option Z)) (u v : Z) :
  d <> c -> resids <> c ->
  side_ok st items exampsByUser KU KM numUsers c d zU zM resids = true ->
  0 <= u < numUsers -> 0 <= v < numUsers -> u <> v ->
  KM <= Z.of_nat (length counts) ->
  exists userExamps s_uv c_uv s_vu c_vu,
    unpackJagged (jget st exampsByUser) numUsers = Some userExamps
    /\ (s1 ← entity_iter deviates items KU KM invSigmaSqd invSigmaSqd0 ratio c d
               zU zM resids userExamps u (st, counts);
        entity_iter deviates items KU KM invSigmaSqd invSigmaSqd0 ratio c d
          zU zM resids userExamps v s1) = Some (s_uv, c_uv)
    /\ (s1 ← entity_iter deviates items KU KM invSigmaSqd invSigmaSqd0 ratio c d
               zU zM resids userExamps v (st, counts);
        entity_iter deviates items KU KM invSigmaSqd invSigmaSqd0 ratio c d
          zU zM resids userExamps u s1) = Some (s_vu, c_vu)
    /\ st_rng s_uv = st_rng s_vu
    /\ (forall k, ~ (u * KM <= k < u * KM + KM) -> ~ (v * KM <= k < v * KM + KM) ->
          dload s_uv c k = dload s_vu c k)
    /\ ((forall i, 0 <= i < KM ->
           deviates (st_rng st + Z.to_nat KM + Z.to_nat i)%nat
           = deviates (st_rng st + Z.to_nat i)%nat) ->
        s_uv = s_vu).
Proof.
  intros Hdc Hrc Hok Hu Hv Huv Hcl.
  destruct (two_bodies_spec items exampsByUser KU KM numUsers invSigmaSqd invSigmaSqd0
              ratio c d zU zM resids st counts u v Hdc Hrc Hok Hu Hv Huv Hcl)
    as (s_uv & c_uv & Hrun1 & Hfr1 & Hrng1 & Hrows1 & Hout1).
  destruct (two_bodies_spec items exampsByUser KU KM numUsers invSigmaSqd invSigmaSqd0
              ratio c d zU zM resids st counts v u Hdc Hrc Hok Hv Hu
              (not_eq_sym Huv) Hcl)
    as (s_vu & c_vu & Hrun2 & Hfr2 & Hrng2 & Hrows2 & Hout2).
  exists (take (Z.to_nat numUsers) (jget st exampsByUser)), s_uv, c_uv, s_vu, c_vu.
  split.
  { apply unpackJagged_spec.
    apply side_ok_inv in Hok as (_ & _ & _ & _ & Hjl & _). exact Hjl. }
  split; [exact Hrun1 |]. split; [exact Hrun2 |].
  split; [congruence |]. split.
  - intros k Hku Hkv. rewrite (Hout1 k Hku Hkv), (Hout2 k Hkv Hku). reflexivity.
  - intros Hdev. apply state_ext.
    + intros r. destruct Hfr1 as (H1 & _), Hfr2 as (H2 & _). rewrite H1, H2. reflexivity.
    + intros r. destruct Hfr1 as (_ & H1 & _), Hfr2 as (_ & H2 & _).
      rewrite H1, H2. reflexivity.
    + intros p. destruct (decide (p = c)) as [-> | Hp].
      * apply aread_ext.
        -- rewrite (frame_dget_length c st s_uv c Hfr1),
             (frame_dget_length c st s_vu c Hfr2). reflexivity.
        -- intros k _. fold (dload s_uv c k). fold (dload s_vu c k).
           destruct (decide (u * KM <= k < u * KM + KM)) as [Hin | Hku].
           ++ replace k with (u * KM + (k - u * KM)) by lia.
              destruct (Hrows1 (k - u * KM)) as [H1 _]; [lia |].
              destruct (Hrows2 (k - u * KM)) as [_ H2]; [lia |].
              rewrite H1, H2, Hdev by lia. reflexivity.
           ++ destruct (decide (v * KM <= k < v * KM + KM)) as [Hin | Hkv].
              ** replace k with (v * KM + (k - v * KM)) by lia.
                 destruct (Hrows1 (k - v * KM)) as [_ H1]; [lia |].
                 destruct (Hrows2 (k - v * KM)) as [H2 _]; [lia |].
                 rewrite H1, H2, Hdev by lia. reflexivity.
              ** rewrite (Hout1 k Hku Hkv), (Hout2 k Hkv Hku). reflexivity.
      * destruct Hfr1 as (_ & _ & H1 & _), Hfr2 as (_ & _ & H2 & _).
        rewrite H1, H2 by exact Hp. reflexivity.
    + congruence.
Qed.

(** A cell among the first [n * K] is cell [i] of row [u] for some [u < n]
    and [i < K]. *)
Lemma row_cell (n K k : Z) :
  0 <= K -> 0 <= k < n * K ->
  exists u i, 0 <= u < n /\ 0 <= i < K /\ k = u * K + i.
Proof.
  intros HK Hk.
  assert (HKpos : 0 < K).
  { destruct (decide (K = 0)) as [HK0 | HK0]; [| lia].
    rewrite HK0, Z.mul_0_r in Hk. lia. }
  exists (k / K), (k mod K).
  pose proof (Z.div_mod k K ltac:(lia)) as Hdm.
  pose proof (Z.mod_pos_bound k K HKpos) as Hmod.
  split; [| split; [exact Hmod | lia]].
  split; [apply Z.div_pos; lia |].
  apply Z.div_lt_upper_bound; [exact HKpos | lia].
Qed.

(** X8: when [KU <= 0] the call reads neither [d] nor the entity ids nor
    the topics of the other side: two states that agree on [zM], [resids],
    the adjacency lists, [c] and the generator give the same [c], whatever
    their other arrays hold. *)
Theorem no_offsets_subtracted_without_topics
    (users items : uptr) (exampsByUser : jptr) (KU KM numUsers : Z)
    (invSigmaSqd invSigmaSqd0 priorMean : D) (c d : dptr) (zU zM : uptr)
    (resids : dptr) (st_a st_b : @state D) :
  d <> c -> resids <> c ->
  KU <= 0 ->
  side_ok st_a items exampsByUser KU KM numUsers c d zU zM resids = true ->
  uget st_b zM = uget st_a zM ->
  jget st_b exampsByUser = jget st_a exampsByUser ->
  dget st_b resids = dget st_a resids ->
  dget st_b c = dget st_a c ->
  st_rng st_b = st_rng st_a ->
  exists a' b',
    sampleOffsets deviates users items exampsByUser KU KM numUsers
      invSigmaSqd invSigmaSqd0 priorMean c d zU zM resids st_a = Some a'
    /\ sampleOffsets deviates users items exampsByUser KU KM numUsers
         invSigmaSqd invSigmaSqd0 priorMean c d zU zM resids st_b = Some b'
    /\ dget b' c = dget a' c.
Proof.
  intros Hdc Hrc HKU Hoka HzM Hj Hres Hc Hrng.
  assert (Hexok : forall ex,
    example_ok st_b items KU KM d zU zM resids ex
    = example_ok st_a items KU KM d zU zM resids ex).
  { intros ex. unfold example_ok, uload, dload. rewrite HzM, Hres.
    destruct (Z.ltb_spec 0 KU); [lia | reflexivity]. }
  assert (Hokb : side_ok st_b items exampsByUser KU KM numUsers c d zU zM resids = true).
  { rewrite <- Hoka. unfold side_ok. rewrite Hc, Hj.
    f_equal. apply forallb_pointwise. intros examps. f_equal.
    apply forallb_pointwise. exact Hexok. }
  destruct (sampleOffsets_spec deviates items KU KM c d zU zM resids Hdc Hrc
              users exampsByUser numUsers invSigmaSqd invSigmaSqd0 priorMean st_a Hoka)
    as (a' & Hruna & Hfra & _ & Hrowsa & Houta).
  destruct (sampleOffsets_spec deviates items KU KM c d zU zM resids Hdc Hrc
              users exampsByUser numUsers invSigmaSqd invSigmaSqd0 priorMean st_b Hokb)
    as (b' & Hrunb & Hfrb & _ & Hrowsb & Houtb).
  exists a', b'. split; [exact Hruna |]. split; [exact Hrunb |].
  assert (Hslot : forall ex, slot_of st_b zM ex = slot_of st_a zM ex).
  { intros ex. unfold slot_of, uload. rewrite HzM. reflexivity. }
  assert (Hcontr : forall ex, contribution st_b items KU d zU resids ex
                              = contribution st_a items KU d zU resids ex).
  { intros ex. unfold contribution, dload. rewrite Hres.
    destruct (Z.ltb_spec 0 KU); [lia | reflexivity]. }
  assert (Hexs : forall l i, topic_examples st_b zM l i = topic_examples st_a zM l i).
  { intros l i. unfold topic_examples. induction l as [| ex l IH]; [reflexivity |].
    rewrite !filter_cons, IH, Hslot. reflexivity. }
  assert (Hsum : forall l i, topic_sum st_b items KU d zU zM resids l i
                             = topic_sum st_a items KU d zU zM resids l i).
  { intros l i. unfold topic_sum. rewrite Hexs. generalize (@d_zero D ops).
    induction (topic_examples st_a zM l i) as [| ex t IH]; intros acc; [reflexivity |].
    simpl. rewrite Hcontr. apply IH. }
  apply side_ok_inv in Hoka as (HKM & _).
  apply aread_ext.
  - rewrite (frame_dget_length c st_a a' c Hfra), (frame_dget_length c st_b b' c Hfrb), Hc.
    reflexivity.
  - intros k _. fold (dload b' c k). fold (dload a' c k).
    destruct (decide (0 <= k < numUsers * KM)) as [Hin | Hnot].
    + destruct (row_cell numUsers KM k HKM Hin) as (u & i & Hu & Hi & ->).
      rewrite (Hrowsa u i Hu Hi), (Hrowsb u i Hu Hi), Hrng.
      unfold examples_of. rewrite Hj. unfold topic_count. rewrite Hexs, Hsum.
      reflexivity.
    + rewrite (Houta k Hnot), (Houtb k Hnot). unfold dload. rewrite Hc. reflexivity.
Qed.

End Footprint.

Section DriverFacts.

Context {D : Type} {ops : DoubleOps D}.
Variable deviates : nat -> D.

(** X2: on usable inputs the entry point returns.  It leaves the entity
    ids, the topics, the adjacency lists and the residuals as they were,
    keeps the sizes of [c] and [d], and draws [numUsers * KM] deviates for
    the users when their call is made plus [numItems * KU] for the items
    when theirs is. *)
Theorem driver_footprint (m : @model D) (sampParams : option (list bool))
    (st : @state D) :
  flags_ok sampParams = true ->
  let goUser := (0 <? m_KM m) && flag_or_default sampParams 0 in
  let goItem := (0 <? m_KU m) && flag_or_default sampParams 1 in
  (goUser = true -> user_ok m st = true) ->
  (goItem = true -> item_ok m st = true) ->
  exists st',
    mexFunction deviates m sampParams st = Some st'
    /\ (forall r, uget st' r = uget st r)
    /\ (forall r, jget st' r = jget st r)
    /\ st_resids st' = st_resids st
    /\ length (st_c st') = length (st_c st)
    /\ length (st_d st') = length (st_d st)
    /\ st_rng st'
       = (st_rng st
          + (if goUser then Z.to_nat (m_numUsers m * m_KM m) else 0)
          + (if goItem then Z.to_nat (m_numItems m * m_KU m) else 0))%nat.
Proof.
  intros Hflags goUser goItem HokU HokI.
  rewrite mexFunction_runOffsetUpdate by exact Hflags.
  unfold runOffsetUpdate. fold goUser goItem.
  assert (Hfirst : exists st1,
    (if goUser then user_phase deviates m st else Some st) = Some st1
    /\ frame Pc st st1
    /\ st_rng st1
       = (st_rng st + (if goUser then Z.to_nat (m_numUsers m * m_KM m) else 0))%nat).
  { destruct goUser.
    - destruct (sampleOffsets_spec deviates Pitems (m_KU m) (m_KM m) Pc Pd PzU PzM Presids
                  ltac:(discriminate) ltac:(discriminate) Pusers PexampsByUser (m_numUsers m)
                  (d_div d_one (m_sigmaSqd m)) (d_div d_one (m_sigmaSqd0 m)) (m_c0 m) st
                  (HokU eq_refl))
        as (st1 & Hrun & Hfr & Hrng & _).
      exists st1. repeat split; try assumption; apply Hfr.
    - exists st. split; [reflexivity |]. split; [apply frame_refl | lia]. }
  destruct Hfirst as (st1 & Hrun1 & Hfr1 & Hrng1).
  rewrite Hrun1. cbn [mbind option_bind].
  assert (Hsecond : exists st2,
    (if goItem then item_phase deviates m st1 else Some st1) = Some st2
    /\ frame Pd st1 st2
    /\ st_rng st2
       = (st_rng st1 + (if goItem then Z.to_nat (m_numItems m * m_KU m) else 0))%nat).
  { destruct goItem.
    - assert (HokI1 : item_ok m st1 = true).
      { unfold item_ok. rewrite (side_ok_frame Pc st st1) by exact Hfr1.
        apply HokI. reflexivity. }
      destruct (sampleOffsets_spec deviates Pusers (m_KM m) (m_KU m) Pd Pc PzM PzU Presids
                  ltac:(discriminate) ltac:(discriminate) Pitems PexampsByItem (m_numItems m)
                  (d_div d_one (m_sigmaSqd m)) (d_div d_one (m_sigmaSqd0 m)) (m_d0 m) st1
                  HokI1)
        as (st2 & Hrun & Hfr & Hrng & _).
      exists st2. repeat split; try assumption; apply Hfr.
    - exists st1. split; [reflexivity |]. split; [apply frame_refl | lia]. }
  destruct Hsecond as (st2 & Hrun2 & Hfr2 & Hrng2).
  exists st2. split; [exact Hrun2 |].
  destruct Hfr1 as (Hu1 & Hj1 & Hd1 & Hl1), Hfr2 as (Hu2 & Hj2 & Hd2 & Hl2).
  split; [intros r; rewrite Hu2; apply Hu1 |].
  split; [intros r; rewrite Hj2; apply Hj1 |].
  split.
  { change (dget st2 Presids = dget st Presids).
    rewrite Hd2, Hd1 by discriminate. reflexivity. }
  split.
  { change (length (dget st2 Pc) = length (dget st Pc)).
    rewrite Hd2 by discriminate. exact Hl1. }
  split.
  { change (length (dget st2 Pd) = length (dget st Pd)).
    rewrite Hl2, Hd1 by discriminate. reflexivity. }
  rewrite Hrng2, Hrng1. reflexivity.
Qed.

(** X4: the flags are read without a check of how many were passed.  With
    [KU > 0] and fewer than two flags, or with [KM > 0] and no flag at all,
    the entry point reads past the end of the flag array: its behaviour is
    undefined, whatever the other inputs are. *)
Theorem short_flags_undefined_behaviour (m : @model D) (flags : list bool)
    (st : @state D) :
  (0 < m_KU m /\ (length flags < 2)%nat) \/ (0 < m_KM m /\ flags = []) ->
  mexFunction deviates m (Some flags) st = None.
Proof.
  intros Hshort. unfold mexFunction, phase_guard, sampFlag.
  destruct Hshort as [[HKU Hlen] | [HKM ->]].
  - destruct (Z.ltb_spec 0 (m_KU m)); [| lia].
    assert (Hsnd : aread flags 1 = None).
    { unfold aread. simpl. apply lookup_ge_None_2. simpl. lia. }
    rewrite Hsnd.
    destruct (0 <? m_KM m).
    + destruct (aread flags 0) as [[|] |]; cbn [mbind option_bind]; try reflexivity.
      destruct (sampleOffsets _ _ _ _ _ _ _ _ _ _ _ _ _ _ _ _); reflexivity.
    + reflexivity.
  - destruct (Z.ltb_spec 0 (m_KM m)); [| lia]. reflexivity.
Qed.


End DriverFacts.

(** ** What a call that returns has left alone *)

(** The rule of the counted loop for a loop that is known to end: an
    invariant that every round that ends carries over holds at the end. *)
Lemma for_loop_Some_inv {T : Type} (body : Z -> T -> option T) (P : Z -> T -> Prop)
    (n : nat) :
  forall (i : Z) (s t : T),
    for_loop body i n s = Some t ->
    P i s ->
    (forall k a b, i <= k < i + Z.of_nat n -> P k a -> body k a = Some b -> P (k + 1) b) ->
    P (i + Z.of_nat n) t.
Proof.
  induction n as [| n IH]; intros i s t Hrun Hs Hstep.
  - simpl in Hrun. injection Hrun as <-.
    replace (i + Z.of_nat 0) with i by lia. exact Hs.
  - simpl in Hrun. apply bind_Some in Hrun as (s1 & Hb & Hrun).
    replace (i + Z.of_nat (S n)) with (i + 1 + Z.of_nat n) by lia.
    apply (IH (i + 1) s1 t Hrun).
    + apply (Hstep i s s1); [lia | exact Hs | exact Hb].
    + intros k a b Hk. apply Hstep. lia.
Qed.

Lemma awrite_Some_inv {A : Type} (a a' : list A) (i : Z) (v : A) :
  awrite a i v = Some a' ->
  0 <= i < Z.of_nat (length a) /\ a' = <[Z.to_nat i := v]> a.
Proof.
  unfold awrite. destruct (Z.leb_spec 0 i); [| discriminate].
  destruct (Z.ltb_spec i (Z.of_nat (length a))); [| discriminate].
  simpl. intros H'. injection H' as <-. split; [lia | reflexivity].
Qed.

Section ReturningCall.

Context {D : Type} {ops : DoubleOps D}.
Variable deviates : nat -> D.
Variables (items : uptr) (KU KM : Z) (c d : dptr) (zU zM : uptr) (resids : dptr).

Implicit Types (st : @state D) (counts : list (option Z)).

Lemma dstore_Some_inv st st' p i (v : D) :
  dstore st p i v = Some st' ->
  frame p st st' /\ 0 <= i < Z.of_nat (length (dget st p)).
Proof.
  intros Hst. assert (Hb : 0 <= i < Z.of_nat (length (dget st p))).
  { unfold dstore in Hst. apply bind_Some in Hst as (a & Ha & _).
    apply awrite_Some_inv in Ha as [Hb _]. exact Hb. }
  destruct (dstore_spec st p i v Hb) as (st'' & Hst'' & Hfr & _).
  rewrite Hst in Hst''. injection Hst'' as <-. split; assumption.
Qed.

Lemma fillArrayD_Some_inv st st' p ptr n (v : D) :
  fillArrayD p ptr n v st = Some st' -> frame p st st'.
Proof.
  intros Hrun. unfold fillArrayD in Hrun.
  apply (for_loop_Some_inv _ (fun _ t => frame p st t) _ _ _ _ Hrun).
  - apply frame_refl.
  - intros k a b _ Hfr Hb. apply dstore_Some_inv in Hb as [Hfr' _].
    eapply frame_trans; eassumption.
Qed.

(** The one store of a round of the loop over the examples goes to [c]. *)
Lemma accum_body_Some_inv st st' counts counts' cPtr ex :
  accum_body items KU c d zU zM resids cPtr ex (st, counts) = Some (st', counts') ->
  frame c st st'.
Proof.
  intros Hrun. unfold accum_body in Hrun. cbv beta iota zeta in Hrun.
  apply bind_Some in Hrun as (zm & Hzm & Hrun).
  apply bind_Some in Hrun as (st1 & Hst1 & Hrun).
  apply bind_Some in Hrun as (cell & _ & Hrun).
  apply bind_Some in Hrun as (n & _ & Hrun).
  apply bind_Some in Hrun as (n' & _ & Hrun).
  apply bind_Some in Hrun as (counts1 & _ & Hrun).
  injection Hrun as -> ->.
  destruct (0 <? KU).
  - apply bind_Some in Hst1 as (old & _ & Hst1).
    apply bind_Some in Hst1 as (r & _ & Hst1).
    apply bind_Some in Hst1 as (it & _ & Hst1).
    apply bind_Some in Hst1 as (zu & _ & Hst1).
    apply bind_Some in Hst1 as (dv & _ & Hst1).
    apply dstore_Some_inv in Hst1 as [Hfr _]. exact Hfr.
  - apply bind_Some in Hst1 as (old & _ & Hst1).
    apply bind_Some in Hst1 as (r & _ & Hst1).
    apply dstore_Some_inv in Hst1 as [Hfr _]. exact Hfr.
Qed.

Lemma sample_iter_Some_inv invSigmaSqd invSigmaSqd0 ratio st st' counts cPtr i :
  sample_iter deviates invSigmaSqd invSigmaSqd0 ratio c cPtr counts i st = Some st' ->
  frame c st st'.
Proof.
  intros Hrun. unfold sample_iter in Hrun.
  apply bind_Some in Hrun as (cell & _ & Hrun).
  apply bind_Some in Hrun as (n & _ & Hrun).
  cbv zeta in Hrun.
  apply bind_Some in Hrun as (old & _ & Hrun).
  match type of Hrun with
  | context [gsl_ran_gaussian deviates st ?sigma] =>
      destruct (gsl_ran_gaussian_spec deviates c st sigma) as (_ & _ & Hfrg & _);
      destruct (gsl_ran_gaussian deviates st sigma) as [g st1]
  end.
  simpl in Hfrg. apply dstore_Some_inv in Hrun as [Hfr _].
  eapply frame_trans; eassumption.
Qed.

(** The body of the loop over the entities, when it ends. *)
Lemma entity_iter_Some_inv invSigmaSqd invSigmaSqd0 ratio st st' counts counts'
    userExamps u :
  entity_iter deviates items KU KM invSigmaSqd invSigmaSqd0 ratio c d zU zM resids
    userExamps u (st, counts) = Some (st', counts') ->
  frame c st st'.
Proof.
  intros Hrun. unfold entity_iter in Hrun.
  apply bind_Some in Hrun as ([cPtr [st2 counts2]] & Hstats & Hrun).
  apply bind_Some in Hrun as (st3 & Hsample & Hrun). injection Hrun as -> ->.
  unfold entity_stats in Hstats.
  apply bind_Some in Hstats as (cPtr' & _ & Hstats).
  apply bind_Some in Hstats as (st1 & Hfill & Hstats).
  apply bind_Some in Hstats as (counts1 & _ & Hstats).
  apply bind_Some in Hstats as (examps & _ & Hstats).
  destruct (INT_MAX <? Z.of_nat (length examps)); [discriminate |].
  apply bind_Some in Hstats as ([st2' counts2'] & Hloop & Hstats).
  injection Hstats as -> -> ->.
  apply fillArrayD_Some_inv in Hfill.
  assert (Hfr2 : frame c st st2).
  { pose proof (for_loop_Some_inv _ (fun _ s => frame c st (fst s)) _ _ _ _ Hloop Hfill)
      as Hend. apply Hend. intros j [sa ca] [sb cb] _ Hfra Hbody. simpl in *.
    unfold accum_iter in Hbody. apply bind_Some in Hbody as (ex & _ & Hbody).
    apply accum_body_Some_inv in Hbody. eapply frame_trans; eassumption. }
  pose proof (for_loop_Some_inv _ (fun _ t => frame c st t) _ _ _ _ Hsample Hfr2)
    as Hend.
  apply Hend. intros k a b _ Hfra Hb.
  apply sample_iter_Some_inv in Hb. eapply frame_trans; eassumption.
Qed.


End ReturningCall.

(** * The further properties on the small data set *)

Lemma call_footprint_witness :
  (Pd <> Pc /\ Presids <> Pc
   /\ side_ok (@fixture_state R _) Pitems PexampsByUser 2 2 2 Pc Pd PzU PzM Presids = true)
  /\ exists st',
       sampleOffsets (constant_deviates 0%R) Pusers Pitems PexampsByUser 2 2 2
         1%R 1%R 1%R Pc Pd PzU PzM Presids fixture_state = Some st'
       /\ st_rng st' = 4%nat.
Proof.
  assert (h1 : Pd <> Pc) by discriminate.
  assert (h2 : Presids <> Pc) by discriminate.
  assert (h3 : side_ok (@fixture_state R _) Pitems PexampsByUser 2 2 2 Pc Pd PzU PzM Presids
               = true) by (vm_compute; reflexivity).
  split; [repeat split; assumption |].
  destruct (call_footprint (constant_deviates 0%R) Pusers Pitems PexampsByUser
              2 2 2 1%R 1%R 1%R Pc Pd PzU PzM Presids fixture_state h1 h2 h3)
    as (st' & Hrun & Hrng & _).
  exists st'. split; [exact Hrun | exact Hrng].
Defined.

Lemma driver_footprint_witness :
  (flags_ok (Some [false; true]) = true
   /\ ((0 <? m_KM (@fixture_model R _)) && flag_or_default (Some [false; true]) 0 = true ->
       user_ok (@fixture_model R _) fixture_state = true)
   /\ item_ok (@fixture_model R _) fixture_state = true)
  /\ exists st',
       mexFunction (constant_deviates 0%R) fixture_model (Some [false; true]) fixture_state
       = Some st'
       /\ st_rng st' = 4%nat.
Proof.
  assert (h1 : flags_ok (Some [false; true]) = true) by reflexivity.
  assert (h2 : (0 <? m_KM (@fixture_model R _)) && flag_or_default (Some [false; true]) 0
               = true -> user_ok (@fixture_model R _) fixture_state = true)
    by (intros Hgo; discriminate Hgo).
  assert (h3 : item_ok (@fixture_model R _) fixture_state = true)
    by (vm_compute; reflexivity).
  split; [repeat split; assumption |].
  destruct (driver_footprint (constant_deviates 0%R) fixture_model (Some [false; true])
              fixture_state h1 h2 (fun _ => h3))
    as (st' & Hrun & _ & _ & _ & _ & _ & Hrng).
  exists st'. split; [exact Hrun | exact Hrng].
Defined.

Lemma empty_call_is_identity_witness :
  (Pd <> Pc /\ Presids <> Pc
   /\ side_ok (@fixture_state R _) Pitems PexampsByUser 2 2 0 Pc Pd PzU PzM Presids = true
   /\ 0 * 2 = 0)
  /\ sampleOffsets (constant_deviates 0%R) Pusers Pitems PexampsByUser 2 2 0
       1%R 1%R 1%R Pc Pd PzU PzM Presids fixture_state = Some fixture_state.
Proof.
  assert (h1 : Pd <> Pc) by discriminate.
  assert (h2 : Presids <> Pc) by discriminate.
  assert (h3 : side_ok (@fixture_state R _) Pitems PexampsByUser 2 2 0 Pc Pd PzU PzM Presids
               = true) by (vm_compute; reflexivity).
  assert (h4 : 0 * 2 = 0) by reflexivity.
  split; [repeat split; assumption |].
  exact (empty_call_is_identity (constant_deviates 0%R) Pusers Pitems PexampsByUser
           2 2 0 1%R 1%R 1%R Pc Pd PzU PzM Presids fixture_state h1 h2 h3 h4).
Defined.

Lemma short_flags_undefined_behaviour_witness :
  ((0 < m_KU (@fixture_model R _) /\ (length [true] < 2)%nat)
   \/ (0 < m_KM (@fixture_model R _) /\ [true] = []))
  /\ mexFunction (constant_deviates 0%R) fixture_model (Some [true]) fixture_state = None.
Proof.
  assert (h1 : (0 < m_KU (@fixture_model R _) /\ (length [true] < 2)%nat)
               \/ (0 < m_KM (@fixture_model R _) /\ [true] = [])).
  { left. split; [reflexivity | simpl; lia]. }
  split; [exact h1 |].
  exact (short_flags_undefined_behaviour (constant_deviates 0%R) fixture_model [true]
           fixture_state h1).
Defined.

Lemma scratch_counts_forgotten_witness :
  (Pd <> Pc /\ Presids <> Pc
   /\ side_ok (@fixture_state R _) Pitems PexampsByUser 2 2 2 Pc Pd PzU PzM Presids = true
   /\ 0 <= 1 < 2
   /\ 2 <= Z.of_nat (length [Some 7; Some 9])
   /\ 2 <= Z.of_nat (length (replicate 4 (@None Z))))
  /\ exists userExamps st3 counts_a' counts_b',
       unpackJagged (jget (@fixture_state R _) PexampsByUser) 2 = Some userExamps
       /\ entity_iter (constant_deviates 0%R) Pitems 2 2 1%R 1%R 1%R Pc Pd PzU PzM
            Presids userExamps 1 (fixture_state, [Some 7; Some 9]) = Some (st3, counts_a')
       /\ entity_iter (constant_deviates 0%R) Pitems 2 2 1%R 1%R 1%R Pc Pd PzU PzM
            Presids userExamps 1 (fixture_state, replicate 4 None) = Some (st3, counts_b').
Proof.
  assert (h1 : Pd <> Pc) by discriminate.
  assert (h2 : Presids <> Pc) by discriminate.
  assert (h3 : side_ok (@fixture_state R _) Pitems PexampsByUser 2 2 2 Pc Pd PzU PzM Presids
               = true) by (vm_compute; reflexivity).
  assert (h4 : 0 <= 1 < 2) by lia.
  assert (h5 : 2 <= Z.of_nat (length [Some 7; Some 9])) by (simpl; lia).
  assert (h6 : 2 <= Z.of_nat (length (replicate 4 (@None Z)))) by (simpl; lia).
  split; [repeat split; assumption || lia |].
  exact (scratch_counts_forgotten (constant_deviates 0%R) Pitems PexampsByUser 2 2 2
           1%R 1%R 1%R Pc Pd PzU PzM Presids fixture_state
           [Some 7; Some 9] (replicate 4 None) 1 h1 h2 h3 h4 h5 h6).
Defined.

Lemma entity_bodies_commute_witness :
  (Pd <> Pc /\ Presids <> Pc
   /\ side_ok (@fixture_state R _) Pitems PexampsByUser 2 2 2 Pc Pd PzU PzM Presids = true
   /\ 0 <= 0 < 2 /\ 0 <= 1 < 2 /\ 0 <> 1
   /\ 2 <= Z.of_nat (length (replicate 4 (@None Z))))
  /\ exists userExamps s_uv c_uv c_vu,
       unpackJagged (jget (@fixture_state R _) PexampsByUser) 2 = Some userExamps
       /\ (s1 ← entity_iter (constant_deviates 0%R) Pitems 2 2 1%R 1%R 1%R Pc Pd PzU PzM
                  Presids userExamps 0 (fixture_state, replicate 4 None);
           entity_iter (constant_deviates 0%R) Pitems 2 2 1%R 1%R 1%R Pc Pd PzU PzM
             Presids userExamps 1 s1) = Some (s_uv, c_uv)
       /\ (s1 ← entity_iter (constant_deviates 0%R) Pitems 2 2 1%R 1%R 1%R Pc Pd PzU PzM
                  Presids userExamps 1 (fixture_state, replicate 4 None);
           entity_iter (constant_deviates 0%R) Pitems 2 2 1%R 1%R 1%R Pc Pd PzU PzM
             Presids userExamps 0 s1) = Some (s_uv, c_vu).
Proof.
  assert (h1 : Pd <> Pc) by discriminate.
  assert (h2 : Presids <> Pc) by discriminate.
  assert (h3 : side_ok (@fixture_state R _) Pitems PexampsByUser 2 2 2 Pc Pd PzU PzM Presids
               = true) by (vm_compute; reflexivity).
  assert (h4 : 0 <= 0 < 2) by lia.
  assert (h5 : 0 <= 1 < 2) by lia.
  assert (h6 : 0 <> 1) by lia.
  assert (h7 : 2 <= Z.of_nat (length (replicate 4 (@None Z)))) by (simpl; lia).
  split; [repeat split; assumption || lia |].
  destruct (entity_bodies_commute (constant_deviates 0%R) Pitems PexampsByUser 2 2 2
              1%R 1%R 1%R Pc Pd PzU PzM Presids fixture_state (replicate 4 None) 0 1
              h1 h2 h3 h4 h5 h6 h7)
    as (userExamps & s_uv & c_uv & s_vu & c_vu & Hun & Huv & Hvu & _ & _ & Hsame).
  exists userExamps, s_uv, c_uv, c_vu.
  split; [exact Hun |]. split; [exact Huv |].
  rewrite (Hsame (fun _ _ => eq_refl)). exact Hvu.
Defined.


Lemma no_offsets_subtracted_without_topics_witness :
  (Pd <> Pc /\ Presids <> Pc /\ 0 <= 0
   /\ side_ok (@fixture_state R _) Pitems PexampsByUser 0 2 2 Pc Pd PzU PzM Presids = true
   /\ uget (dset (@fixture_state R _) Pd []) PzM = uget (@fixture_state R _) PzM
   /\ jget (dset (@fixture_state R _) Pd []) PexampsByUser
      = jget (@fixture_state R _) PexampsByUser
   /\ dget (dset (@fixture_state R _) Pd []) Presids = dget (@fixture_state R _) Presids
   /\ dget (dset (@fixture_state R _) Pd []) Pc = dget (@fixture_state R _) Pc
   /\ st_rng (dset (@fixture_state R _) Pd []) = st_rng (@fixture_state R _))
  /\ exists a' b',
       sampleOffsets (constant_deviates 0%R) Pusers Pitems PexampsByUser 0 2 2
         1%R 1%R 1%R Pc Pd PzU PzM Presids fixture_state = Some a'
       /\ sampleOffsets (constant_deviates 0%R) Pusers Pitems PexampsByUser 0 2 2
            1%R 1%R 1%R Pc Pd PzU PzM Presids (dset fixture_state Pd []) = Some b'
       /\ dget b' Pc = dget a' Pc.
Proof.
  assert (h1 : Pd <> Pc) by discriminate.
  assert (h2 : Presids <> Pc) by discriminate.
  assert (h3 : 0 <= 0) by lia.
  assert (h4 : side_ok (@fixture_state R _) Pitems PexampsByUser 0 2 2 Pc Pd PzU PzM Presids
               = true) by (vm_compute; reflexivity).
  split; [repeat split; assumption |].
  exact (no_offsets_subtracted_without_topics (constant_deviates 0%R) Pusers Pitems
           PexampsByUser 0 2 2 1%R 1%R 1%R Pc Pd PzU PzM Presids fixture_state
           (dset fixture_state Pd []) h1 h2 h3 h4 eq_refl eq_refl eq_refl eq_refl eq_refl).
Defined.
